(** * The orientation card component (src/js/components/orientation-card.js)

    A shallow embedding of the A-Frame component [orientation-card]: its
    [init], [onShow], [onHide] and [tick] methods and the three listeners
    [init] registers, as programs in a small state-and-exception monad
    that records every call the component makes on its collaborators.

    The collaborators are not part of the file: the two [CardMesh]
    instances are an interface ([CardMesh] below), the analytics function
    [ga], [PlatformUtils], [TextColorHex] and the string built-in
    [toUpperCase] are fields of a [runtime], and the A-Frame entities are
    a small host model (named states, attributes, and events that bubble
    from their target up through the document). *)

From Stdlib Require Import Floats.
From stdpp Require Import gmap strings list.

Set Warnings "-inexact-float,-register-all,-clear-no-such-hyp".

(** ** JavaScript values *)

(** A JavaScript number is an IEEE 754 binary64. *)
Abbreviation number := float.

Inductive value : Type :=
  | VUndefined
  | VNull
  | VBool (b : bool)
  | VNum (x : number)
  | VStr (s : string)
  | VObj (fields : list (string * value)).

(** Property access [v.name]; [None] is the TypeError raised on
    [null] and [undefined]. *)
Fixpoint lookup_field (name : string) (fields : list (string * value)) : value :=
  match fields with
  | [] => VUndefined
  | (k, v) :: rest => if String.eqb k name then v else lookup_field name rest
  end.

Definition get_field (name : string) (v : value) : option value :=
  match v with
  | VUndefined | VNull => None
  | VObj fields => Some (lookup_field name fields)
  | _ => Some VUndefined
  end.

(** [v !== s] for a string literal [s]. *)
Definition differs_from_string (v : value) (s : string) : bool :=
  match v with
  | VStr s' => negb (String.eqb s' s)
  | _ => true
  end.

(** ** Constants of the module *)

Definition DESKTOP_Y_OFFSET : number := 0.3.
Definition HEADER_HEIGHT : number := 0.1.
Definition HEADER_Y_OFFSET : number := 0.566.
Definition TEXT_LEFT_PADDING : number := 0.025.

(** The component's schema: [this.data]. *)
Record data : Type := Data {
  height : number;
  width : number;
  title : string
}.

(** ** Collaborators *)

(** The entities the component touches, named as in the source. *)
Inductive entity : Type :=
  | el | sceneEl | backEl | hitbox | headerEl | headerText | positionDummy.

(** [this.background] and [this.header]. *)
Inductive layer : Type := Background | Header.

(** Every call the component makes on a collaborator, and what the host
    observes of it, in the order it happens. *)
Inductive call : Type :=
  | SetAttribute (e : entity) (attr : string) (v : value)
  | SetObject3D (e : entity) (slot : string)
  | CreateElement (e : entity)
  | AppendChild (parent child : entity)
  | GroupAdd (l : layer)
  | AddEventListener (e : entity) (type : string)
  | MeshNew (l : layer) (w h : number)
  | MeshSetPosition (l : layer) (x y : number)
  | MeshOn (l : layer) (type : string)
  | AddState (e : entity) (st : string)
  | RemoveState (e : entity) (st : string)
  | MeshShow (l : layer) (args : list number)
  | MeshHide (l : layer) (args : list number)
  | MeshTick (l : layer) (dt : number)
  | Raised (l : layer) (type : string)
  | GetCardZOffset
  | GetWorldPosition (e : entity)
  | LookAtTargetUpdate
  | Ga (args : list string)
  | Emit (e : entity) (type : string) (detail : value) (bubbles : bool)
  | UncaughtError.

(** The [CardMesh] class of '../meshes/card-mesh', as the component uses
    it. [show], [hide] and [tick] return the mesh and the names of the
    events it raised to its subscribers during the call. *)
Class CardMesh (M : Type) : Type := {
  mesh_new : number -> number -> M;
  mesh_setPosition : number -> number -> M -> M;
  mesh_show : list number -> M -> M * list string;
  mesh_hide : list number -> M -> M * list string;
  mesh_tick : number -> M -> M * list string;
  mesh_animIn : M -> number
}.

(** The global [ga]: defined and returning, not defined (a
    ReferenceError at the call), or throwing. *)
Inductive analytics : Type := GaReturns | GaMissing | GaThrows.

Record runtime : Type := Runtime {
  ga : analytics;
  toUpperCase : string -> string;
  TextColorHex : value;
  getCardZOffset : number;
  getWorldPosition : number * number * number -> number * number * number
}.

(** ** State *)

(** What the host holds: the named states of the three entities whose
    states the component changes, the attributes it sets and reads back,
    and the log of calls. *)
Record page : Type := Page {
  el_states : gset string;
  scene_states : gset string;
  text_states : gset string;
  el_visible : bool;
  el_position : number * number * number;
  dummy_position : number * number * number;
  text_value : string;
  calls : list call
}.

(** The component object after [init]. *)
Record card (M : Type) : Type := Card {
  background : M;
  header : M;
  host : page
}.
Arguments Card {M} _ _ _.
Arguments background {M} _.
Arguments header {M} _.
Arguments host {M} _.

(** ** The monad: state, exceptions, and fuel for nested event delivery *)

Inductive outcome (S A : Type) : Type :=
  | Returned (a : A) (s : S)
  | Thrown (s : S)
  | OutOfFuel.
Arguments Returned {S A} _ _.
Arguments Thrown {S A} _.
Arguments OutOfFuel {S A}.

Definition js (S A : Type) : Type := S -> outcome S A.

#[global] Instance js_ret {S} : MRet (js S) := fun A a s => Returned a s.
#[global] Instance js_bind {S} : MBind (js S) := fun A B k m s =>
  match m s with
  | Returned a s' => k a s'
  | Thrown s' => Thrown s'
  | OutOfFuel => OutOfFuel
  end.

Definition throw {S A} : js S A := fun s => Thrown s.
Definition out_of_fuel {S A} : js S A := fun _ => OutOfFuel.
Definition gets {S A} (f : S -> A) : js S A := fun s => Returned (f s) s.
Definition modify {S} (f : S -> S) : js S unit := fun s => Returned () (f s).

Fixpoint for_each {S A} (f : A -> js S unit) (xs : list A) : js S unit :=
  match xs with
  | [] => mret ()
  | x :: rest => f x ;; for_each f rest
  end.

(** ** The host: entity states, attributes, events *)

Record event : Type := Event {
  type : string;
  detail : value
}.

(** The event a state change raises, [{ detail: { state: st } }], and the
    cursor event of a click. *)
Definition state_event (ty st : string) : event :=
  Event ty (VObj [("state", VStr st)]).

Definition cursor_up : event := Event "raycaster-cursor-up" (VObj []).

Definition record_calls (cs : list call) (p : page) : page :=
  Page (el_states p) (scene_states p) (text_states p) (el_visible p)
       (el_position p) (dummy_position p) (text_value p) (calls p ++ cs).

Definition states_of (e : entity) (p : page) : gset string :=
  match e with
  | el => el_states p
  | sceneEl => scene_states p
  | headerText => text_states p
  | _ => ∅
  end.

Definition with_states (e : entity) (f : gset string -> gset string) (p : page) : page :=
  match e with
  | el =>
      Page (f (el_states p)) (scene_states p) (text_states p) (el_visible p)
           (el_position p) (dummy_position p) (text_value p) (calls p)
  | sceneEl =>
      Page (el_states p) (f (scene_states p)) (text_states p) (el_visible p)
           (el_position p) (dummy_position p) (text_value p) (calls p)
  | headerText =>
      Page (el_states p) (scene_states p) (f (text_states p)) (el_visible p)
           (el_position p) (dummy_position p) (text_value p) (calls p)
  | _ => p
  end.

Definition with_visible (b : bool) (p : page) : page :=
  Page (el_states p) (scene_states p) (text_states p) b
       (el_position p) (dummy_position p) (text_value p) (calls p).

Definition with_position (e : entity) (v : number * number * number) (p : page) : page :=
  match e with
  | el =>
      Page (el_states p) (scene_states p) (text_states p) (el_visible p)
           v (dummy_position p) (text_value p) (calls p)
  | positionDummy =>
      Page (el_states p) (scene_states p) (text_states p) (el_visible p)
           (el_position p) v (text_value p) (calls p)
  | _ => p
  end.

(** The object literal [{ x: .., y: .., z: .. }]. *)
Definition xyz (v : number * number * number) : value :=
  let '(x, y, z) := v in VObj [("x", VNum x); ("y", VNum y); ("z", VNum z)].

(** The document around the component. [init] appends the hitbox and
    the header element to the element of the back meshes, and the title
    text to the header element. The element of the back meshes,
    'orientation-back-meshes', is fetched by its id: the page has it inside
    the component's element, which is how the card moves and hides when
    [onShow] and [tick] set the position and the 'visible' attribute of
    [el] alone. Every entity is inside the scene. *)
Definition parentNode (e : entity) : option entity :=
  match e with
  | sceneEl => None
  | el => Some sceneEl
  | backEl => Some el
  | hitbox => Some backEl          (* this.backEl.appendChild( this.hitbox ) *)
  | headerEl => Some backEl        (* this.backEl.appendChild( this.headerEl ) *)
  | headerText => Some headerEl    (* this.headerEl.appendChild( this.headerText ) *)
  | positionDummy => Some sceneEl
  end.

(** The entities an event raised on [e] passes, from [e] upwards. *)
Fixpoint ancestors (depth : nat) (e : entity) : list entity :=
  e :: match depth, parentNode e with
       | S n, Some p => ancestors n p
       | _, _ => []
       end.

Definition path (e : entity) : list entity := ancestors 4 e.

(** The listeners [init] registers, by the entity they are registered on. *)
Inductive listener : Type :=
  | ShowOnStateAdded
  | HideOnStateRemoved
  | HideOnCursorUp.

Definition registered (e : entity) (ty : string) : list listener :=
  match e with
  | el =>
      if String.eqb ty "stateadded" then [ShowOnStateAdded]
      else if String.eqb ty "stateremoved" then [HideOnStateRemoved]
      else []
  | backEl =>
      if String.eqb ty "raycaster-cursor-up" then [HideOnCursorUp] else []
  | _ => []
  end.

(** The listeners an event of type [ty] raised on [e] runs. The events of
    [addState] and [removeState] and the cursor event bubble: they run the
    listeners registered on their target and then those on each entity
    above it. Every listener gets the same [event.detail], and no listener
    of the component looks at [event.target]: a state event of the title
    text is answered by the listeners on [el] as one of [el] itself is. *)
Definition listeners (e : entity) (ty : string) : list listener :=
  flat_map (fun a => registered a ty) (path e).

Section Component.

Context {M : Type} `{!CardMesh M}.
Variable rt : runtime.

Abbreviation prog := (js (card M)).

Definition touch (f : page -> page) (s : card M) : card M :=
  Card (background s) (header s) (f (host s)).

Definition on_host (f : page -> page) : prog unit := modify (touch f).

Definition log (c : call) : prog unit := on_host (record_calls [c]).

Definition mesh (l : layer) (s : card M) : M :=
  match l with Background => background s | Header => header s end.

Definition set_mesh (l : layer) (m : M) (s : card M) : card M :=
  match l with
  | Background => Card m (header s) (host s)
  | Header => Card (background s) m (host s)
  end.

(** *** Entity.addState / Entity.removeState

    A state already present is not added again and raises nothing; a
    state that is absent is not removed and raises nothing. Otherwise the
    set changes first and the event is delivered after. *)
Definition addState (dl : entity -> event -> prog unit) (e : entity) (st : string)
  : prog unit :=
  log (AddState e st) ;;
  present ← gets (fun s => bool_decide (st ∈ states_of e (host s)));
  if (present : bool) then mret ()
  else
    on_host (with_states e (fun ss => {[st]} ∪ ss)) ;;
    dl e (state_event "stateadded" st).

Definition removeState (dl : entity -> event -> prog unit) (e : entity) (st : string)
  : prog unit :=
  log (RemoveState e st) ;;
  present ← gets (fun s => bool_decide (st ∈ states_of e (host s)));
  if (present : bool) then
    on_host (with_states e (fun ss => ss ∖ {[st]})) ;;
    dl e (state_event "stateremoved" st)
  else mret ().

(** [el.setAttribute('visible', b)] and [e.setAttribute('position', {x, y, z})]. *)
Definition setVisible (b : bool) : prog unit :=
  log (SetAttribute el "visible" (VBool b)) ;;
  on_host (with_visible b).

Definition setPosition (e : entity) (v : number * number * number) : prog unit :=
  log (SetAttribute e "position" (xyz v)) ;;
  on_host (with_position e v).

(** [el.emit(type, detail, bubbles)]. The component registers no listener
    for the one event it emits, so nothing of the component runs in
    response. *)
Definition emit (e : entity) (ty : string) (d : value) (bubbles : bool) : prog unit :=
  log (Emit e ty d bubbles).

(** *** The analytics call *)
Definition call_ga (args : list string) : prog unit :=
  match ga rt with
  | GaReturns => log (Ga args)
  | GaMissing => throw
  | GaThrows => log (Ga args) ;; throw
  end.

(** *** The meshes

    [this.header.on('hide-complete', event => this.el.emit('hide-complete', null, false))]
    is the only subscription: it runs once for each 'hide-complete' the
    header raises, while the header method that raised it is running. *)
Definition relay (l : layer) (name : string) : prog unit :=
  log (Raised l name) ;;
  match l with
  | Header =>
      if String.eqb name "hide-complete"
      then emit el "hide-complete" VNull false
      else mret ()
  | Background => mret ()
  end.

Definition raise (l : layer) (names : list string) : prog unit :=
  for_each (relay l) names.

Definition on_mesh (l : layer) (c : call) (f : M -> M * list string) : prog unit :=
  log c ;;
  m ← gets (mesh l);
  modify (set_mesh l (f m).1) ;;
  raise l (f m).2.

Definition show (l : layer) (args : list number) : prog unit :=
  on_mesh l (MeshShow l args) (mesh_show args).

Definition hide (l : layer) (args : list number) : prog unit :=
  on_mesh l (MeshHide l args) (mesh_hide args).

Definition mesh_tick_call (l : layer) (dt : number) : prog unit :=
  on_mesh l (MeshTick l dt) (mesh_tick dt).

(** ** The component's methods *)

Definition onShow (dl : entity -> event -> prog unit) : prog unit :=
  (* Set visible states for all relevant child entities *)
  addState dl sceneEl "modal" ;;
  addState dl headerText "visible" ;;
  (* Show the background and header meshes. Delay the background mesh *)
  show Background [0.25%float; 0.05%float] ;;
  show Header [0.05%float] ;;
  (* Apply platform-specific z offset *)
  log GetCardZOffset ;;
  setPosition positionDummy (0%float, 0%float, getCardZOffset rt) ;;
  (* Update position and look-at rotation to match the current camera location *)
  log (GetWorldPosition positionDummy) ;;
  uiPosition ← gets (fun s => getWorldPosition rt (dummy_position (host s)));
  setPosition el uiPosition ;;
  log LookAtTargetUpdate.

Definition onHide (dl : entity -> event -> prog unit) : prog unit :=
  (* Remove visible states for all relevant child entities *)
  removeState dl sceneEl "modal" ;;
  removeState dl el "visible" ;;
  removeState dl headerText "visible" ;;
  (* Hide the background and header meshes. Delay the header mesh *)
  hide Background [] ;;
  hide Header [0.05%float; 0.25%float].

Definition tick (t dt : number) : prog unit :=
  mesh_tick_call Background dt ;;
  mesh_tick_call Header dt ;;
  animIn ← gets (fun s => mesh_animIn (header s));
  setVisible (0 <? animIn)%float.

(** ** The listeners of [init] *)

(** [event.detail.state]. *)
Definition detail_state (ev : event) : prog value :=
  match get_field "state" (detail ev) with
  | Some v => mret v
  | None => throw
  end.

Definition run_listener (dl : entity -> event -> prog unit) (l : listener) (ev : event)
  : prog unit :=
  match l with
  | ShowOnStateAdded =>
      st ← detail_state ev;
      if differs_from_string st "visible" then mret ()
      else
        call_ga ["send"; "event"; "orientation-card"; "opened"; EmptyString] ;;
        onShow dl
  | HideOnStateRemoved =>
      st ← detail_state ev;
      if differs_from_string st "visible" then mret ()
      else onHide dl
  | HideOnCursorUp =>
      call_ga ["send"; "event"; "orientation-card"; "dismissed"; EmptyString] ;;
      onHide dl
  end.

(** An exception that leaves a listener is reported by the host and does
    not reach the code that dispatched the event. *)
Definition reported (m : prog unit) : prog unit := fun s =>
  match m s with
  | Thrown s' => log UncaughtError s'
  | o => o
  end.

(** Delivery of an event: the listeners on its path run in turn. A
    listener that runs changes states, which delivers events, which runs
    listeners: [fuel] bounds how deep listeners may nest below the ones
    this delivery runs. With no fuel left they run, and an event raised
    inside them that has a listener to run cannot be delivered. *)
Definition exhausted (e : entity) (ev : event) : prog unit :=
  for_each (fun _ => out_of_fuel) (listeners e (type ev)).

Fixpoint deliver (fuel : nat) (e : entity) (ev : event) : prog unit :=
  for_each (fun l =>
    reported
      (run_listener
         match fuel with 0 => exhausted | S n => deliver n end l ev))
    (listeners e (type ev)).

(** The delivery at work inside the listeners that [deliver fuel] runs. *)
Definition below (fuel : nat) : entity -> event -> prog unit :=
  match fuel with 0 => exhausted | S n => deliver n end.

(** ** What happens to the component *)

Inductive stimulus : Type :=
  | ElAddState (st : string)       (* some code calls el.addState(st) *)
  | ElRemoveState (st : string)    (* some code calls el.removeState(st) *)
  | RaycasterCursorUp              (* a click on the hitbox reaches backEl *)
  | Frame (t dt : number).         (* the scene calls tick(t, dt) *)

Definition react (fuel : nat) (x : stimulus) : prog unit :=
  match x with
  | ElAddState st => addState (deliver fuel) el st
  | ElRemoveState st => removeState (deliver fuel) el st
  | RaycasterCursorUp => deliver fuel backEl cursor_up
  | Frame t dt => tick t dt
  end.

Definition run (fuel : nat) (xs : list stimulus) : prog unit :=
  for_each (react fuel) xs.

(** ** init *)

Definition PI : number := 3.141592653589793%float.

Definition init_calls (d : data) : list call :=
  [ (* Set up look-at-target component so that the card faces the camera directly. *)
    SetAttribute el "look-at-target"
      (VObj [("axis", VStr "xyz"); ("target", VStr "#camera");
             ("alwaysUpdate", VBool false);
             ("offset", xyz (0%float, PI, 0%float))]);
    SetObject3D backEl "mesh";
    (* Create the background plane mesh *)
    MeshNew Background (width d) (height d);
    (* Create the header plane mesh *)
    MeshNew Header (width d) HEADER_HEIGHT;
    MeshSetPosition Header 0%float HEADER_Y_OFFSET;
    (* Create and set up the hitbox *)
    CreateElement hitbox;
    SetAttribute hitbox "position" (VObj [("z", VNum (-1)%float)]);
    SetAttribute hitbox "event-priority" (VNum 100%float);
    SetAttribute hitbox "hitbox"
      (VObj [("expansion", VNum 20%float); ("cursorScale", VNum 0.3%float)]);
    (* Create and position the header text entity *)
    CreateElement headerEl;
    SetAttribute headerEl "position"
      (xyz ((- width d / 2 + TEXT_LEFT_PADDING)%float,
            (HEADER_Y_OFFSET - HEADER_HEIGHT / 2 + 0.025)%float,
            0%float));
    (* Create the title text entity *)
    CreateElement headerText;
    SetAttribute headerText "info-card-text"
      (VObj [("color", TextColorHex rt);
             ("font", VStr "fonts/NowAlt-Bold.json");
             ("letterSpacing", VNum 6%float);
             ("value", VStr (toUpperCase rt (title d)));
             ("width", VNum (width d));
             ("wrapCount", VNum 64%float)]);
    (* Add 'em up *)
    AppendChild backEl hitbox;
    AppendChild backEl headerEl;
    AppendChild headerEl headerText;
    GroupAdd Background;
    GroupAdd Header;
    AddEventListener el "stateadded";
    AddEventListener el "stateremoved";
    AddEventListener backEl "raycaster-cursor-up";
    MeshOn Header "hide-complete" ].

Definition init (d : data) (p : page) : card M :=
  Card (mesh_new (width d) (height d))
       (mesh_setPosition 0%float HEADER_Y_OFFSET (mesh_new (width d) HEADER_HEIGHT))
       (Page (el_states p) (scene_states p) ∅ (el_visible p)
             (el_position p) (dummy_position p)
             (toUpperCase rt (title d))
             (calls p ++ init_calls d)).

End Component.

Arguments onShow {M _} rt dl.
Arguments onHide {M _} dl.
Arguments tick {M _} t dt.
Arguments deliver {M _} rt fuel e ev.
Arguments below {M _} rt fuel e ev.
Arguments react {M _} rt fuel x.
Arguments run {M _} rt fuel xs.
Arguments init {M _} rt d p.

(** ** A reference panel *)

(** Modelled from the spec: CardPanel, the class the source imports from
    '../meshes/card-mesh' and that is not among the sources. The spec
    gives it an animation progress in [0,1] (0 hidden, 1 shown), an
    animating flag, [show]/[hide] taking a delay and a stagger (both 0
    when left out, the stagger an additional delay), [advance], a progress
    that moves only in [advance] once a [show]/[hide] has been issued and
    its delay has elapsed, towards the new target from where it is, and a
    hide-complete notification when the progress reaches 0 after a hide:
    a panel told to hide while its progress is 0 already comes to rest
    without one. The spec leaves the length of a transition open: [span]
    holds it, half a second in a panel made by [create].
    The theorems on the methods hold for every [CardMesh]; this one is
    used to evaluate them, and to say when a hide of the header
    completes. *)
Module Panel.

Inductive motion : Type := Resting | Entering | Leaving.

Record panel : Type := Make {
  size : number * number;
  offset : number * number;
  animIn : number;
  moving : motion;
  wait : number;
  span : number
}.

Definition isAnimating (p : panel) : bool :=
  match moving p with Resting => false | _ => true end.

Definition create (w h : number) : panel :=
  Make (w, h) (0%float, 0%float) 0%float Resting 0%float 0.5%float.

Definition setPosition (x y : number) (p : panel) : panel :=
  Make (size p) (x, y) (animIn p) (moving p) (wait p) (span p).

Definition total_delay (args : list number) : number :=
  (nth 0 args 0 + nth 1 args 0)%float.

Definition show (args : list number) (p : panel) : panel * list string :=
  (Make (size p) (offset p) (animIn p) Entering (total_delay args) (span p), []).

Definition hide (args : list number) (p : panel) : panel * list string :=
  (Make (size p) (offset p) (animIn p) Leaving (total_delay args) (span p), []).

Definition advance (dt : number) (p : panel) : panel * list string :=
  match moving p with
  | Resting => (p, [])
  | Entering =>
      if (0 <? wait p)%float
      then (Make (size p) (offset p) (animIn p) Entering (wait p - dt)%float (span p), [])
      else
        let a := (animIn p + dt / span p)%float in
        if (1 <=? a)%float
        then (Make (size p) (offset p) 1%float Resting 0%float (span p), [])
        else (Make (size p) (offset p) a Entering 0%float (span p), [])
  | Leaving =>
      if (0 <? wait p)%float
      then (Make (size p) (offset p) (animIn p) Leaving (wait p - dt)%float (span p), [])
      else if (animIn p <=? 0)%float
      then (Make (size p) (offset p) 0%float Resting 0%float (span p), [])
      else
        let a := (animIn p - dt / span p)%float in
        if (a <=? 0)%float
        then (Make (size p) (offset p) 0%float Resting 0%float (span p), ["hide-complete"])
        else (Make (size p) (offset p) a Leaving 0%float (span p), [])
  end.

(** The frame on which a hide completes: the panel is leaving, its
    progress is above 0 before the frame and 0 after it. *)
Definition completes (dt : number) (p : panel) : bool :=
  match moving p with Leaving => true | _ => false end &&
  (0 <? animIn p)%float && (animIn (advance dt p).1 =? 0)%float.

#[global] Instance card_mesh : CardMesh panel := {
  mesh_new := create;
  mesh_setPosition := setPosition;
  mesh_show := show;
  mesh_hide := hide;
  mesh_tick := advance;
  mesh_animIn := animIn
}.

End Panel.

(** ** A runtime and a page to evaluate on *)

Definition upper_ascii (c : Ascii.ascii) : Ascii.ascii :=
  let n := Ascii.nat_of_ascii c in
  if (97 <=? n)%nat && (n <=? 122)%nat then Ascii.ascii_of_nat (n - 32) else c.

Fixpoint ascii_upper (s : string) : string :=
  match s with
  | EmptyString => EmptyString
  | String c rest => String (upper_ascii c) (ascii_upper rest)
  end.

(** A desktop browser with analytics loaded; the camera stands at the
    origin of the world, titles are ASCII. *)
Definition desktop : runtime :=
  Runtime GaReturns ascii_upper (VStr "#FFFFFF") (-1.5)%float (fun v => v).

Definition without_analytics : runtime :=
  Runtime GaMissing ascii_upper (VStr "#FFFFFF") (-1.5)%float (fun v => v).

Definition fresh_page : page :=
  Page ∅ ∅ ∅ true (0%float, 0%float, 0%float) (0%float, 0%float, 0%float)
       EmptyString [].

Definition orientation : data := Data 1%float 2%float "Orientation".

Definition fresh_card : card Panel.panel := init desktop orientation fresh_page.

(** The state a program leaves, [otherwise] when it ran out of fuel. *)
Definition outcome_state {S A} (o : outcome S A) (otherwise : S) : S :=
  match o with
  | Returned _ s => s
  | Thrown s => s
  | OutOfFuel => otherwise
  end.

(** The card once 'visible' has been added to the element and no frame
    has passed, and the card after two frames of half a second, both
    panels at rest at progress 1. *)
Definition revealed_card : card Panel.panel :=
  outcome_state (react desktop 2 (ElAddState "visible") fresh_card) fresh_card.

Definition shown_card : card Panel.panel :=
  outcome_state
    (run desktop 2 [Frame 0%float 0.5%float; Frame 0.5%float 0.5%float] revealed_card)
    revealed_card.

(** The shown card after a click on the hitbox and one frame of half a
    second: the background has gone, the header has waited out its delay
    and is about to leave. *)
Definition leaving_card : card Panel.panel :=
  outcome_state
    (run desktop 2 [RaycasterCursorUp; Frame 1%float 0.5%float] shown_card)
    shown_card.

(** The card once the header has left as well. *)
Definition hidden_card : card Panel.panel :=
  outcome_state (tick 1.5%float 0.5%float leaving_card) leaving_card.

(** ** Reading a log *)

(** The calls a program added to the log of [s]. *)
Definition issued {M A} (o : outcome (card M) A) (s : card M) : list call :=
  drop (length (calls (host s))) (calls (host (outcome_state o s))).

(** The two analytics calls of the listeners. *)
Definition opened : list string :=
  ["send"; "event"; "orientation-card"; "opened"; EmptyString].
Definition dismissed : list string :=
  ["send"; "event"; "orientation-card"; "dismissed"; EmptyString].

(** What one event raised by a mesh leaves in the log: the event, and for
    the header's 'hide-complete' the element's own event after it. *)
Definition relay_calls (l : layer) (name : string) : list call :=
  Raised l name ::
  match l with
  | Header =>
      if String.eqb name "hide-complete"
      then [Emit el "hide-complete" VNull false] else []
  | Background => []
  end.

Definition raised (l : layer) (names : list string) : list call :=
  flat_map (relay_calls l) names.

(** A mesh after [n] calls of [show], or of [hide], with the same
    arguments. *)
Definition after_shows {M} `{!CardMesh M} (args : list number) (n : nat) (m : M) : M :=
  Nat.iter n (fun m => (mesh_show args m).1) m.

Definition after_hides {M} `{!CardMesh M} (args : list number) (n : nat) (m : M) : M :=
  Nat.iter n (fun m => (mesh_hide args m).1) m.

(** The calls of one run of [onShow] after its two [addState] calls, from
    meshes [bg] and [hd]: the two [show] calls and the positioning. *)
Definition revealing {M} `{!CardMesh M} (rt : runtime) (bg hd : M) : list call :=
  [MeshShow Background [0.25%float; 0.05%float]] ++
  raised Background (mesh_show [0.25%float; 0.05%float] bg).2 ++
  [MeshShow Header [0.05%float]] ++
  raised Header (mesh_show [0.05%float] hd).2 ++
  [GetCardZOffset;
   SetAttribute positionDummy "position"
     (xyz (0%float, 0%float, getCardZOffset rt));
   GetWorldPosition positionDummy;
   SetAttribute el "position"
     (xyz (getWorldPosition rt (0%float, 0%float, getCardZOffset rt)));
   LookAtTargetUpdate].

(** The calls of one run of [onShow] inside which no listener runs. *)
Definition reveal {M} `{!CardMesh M} (rt : runtime) (bg hd : M) : list call :=
  [AddState sceneEl "modal"; AddState headerText "visible"] ++ revealing rt bg hd.

(** What the state-added listener leaves in the log when 'visible' is
    added to the title text inside a run of [onShow]: its analytics call
    and, when that returns, a whole run of [onShow]. *)
Definition reveal_answer {M} `{!CardMesh M} (rt : runtime) (bg hd : M) : list call :=
  match ga rt with
  | GaReturns => Ga opened :: reveal rt bg hd
  | GaMissing => [UncaughtError]
  | GaThrows => [Ga opened; UncaughtError]
  end.

(** Whether the listeners that call [ga] get past it. *)
Definition ga_returns (rt : runtime) : bool :=
  match ga rt with GaReturns => true | _ => false end.

(** The calls of [hide] on both meshes, from meshes [bg] and [hd]. *)
Definition hiding {M} `{!CardMesh M} (bg hd : M) : list call :=
  [MeshHide Background []] ++
  raised Background (mesh_hide [] bg).2 ++
  [MeshHide Header [0.05%float; 0.25%float]] ++
  raised Header (mesh_hide [0.05%float; 0.25%float] hd).2.

(** The calls of one run of [onHide] inside which no listener runs. *)
Definition dismissal {M} `{!CardMesh M} (bg hd : M) : list call :=
  [RemoveState sceneEl "modal"; RemoveState el "visible";
   RemoveState headerText "visible"] ++ hiding bg hd.

(** The calls of one run of [onHide] on a card whose element does not
    hold 'visible'. When the title text holds 'visible', its removal is
    answered by the state-removed listener of the element: a run of
    [onHide] inside this one, before the [hide] calls of this one. *)
Definition title_dismissal {M} `{!CardMesh M} (text_held : bool) (bg hd : M)
  : list call :=
  [RemoveState sceneEl "modal"; RemoveState el "visible";
   RemoveState headerText "visible"] ++
  (if text_held
   then dismissal bg hd ++
        hiding (after_hides [] 1 bg) (after_hides [0.05%float; 0.25%float] 1 hd)
   else hiding bg hd).

(** 1 when a state is held, 0 when not. *)
Definition held (st : string) (ss : gset string) : nat :=
  if bool_decide (st ∈ ss) then 1 else 0.

(** The runs of [onHide] that one call of it amounts to: its own, one for
    the element's 'visible' and one for the title text's, when held. *)
Definition onHide_runs (p : page) : nat :=
  1 + held "visible" (el_states p) + held "visible" (text_states p).

Definition show_pair : list (layer * list number) :=
  [(Background, [0.25%float; 0.05%float]); (Header, [0.05%float])].

Definition hide_pair : list (layer * list number) :=
  [(Background, []); (Header, [0.05%float; 0.25%float])].

Definition show_calls_in (cs : list call) : list (layer * list number) :=
  flat_map (fun c => match c with MeshShow l args => [(l, args)] | _ => [] end) cs.

Definition hide_calls_in (cs : list call) : list (layer * list number) :=
  flat_map (fun c => match c with MeshHide l args => [(l, args)] | _ => [] end) cs.

Definition removals_in (cs : list call) : list (entity * string) :=
  flat_map (fun c => match c with RemoveState e st => [(e, st)] | _ => [] end) cs.

Definition ga_calls_in (cs : list call) : list (list string) :=
  flat_map (fun c => match c with Ga args => [args] | _ => [] end) cs.

Definition is_emit (c : call) : bool :=
  match c with Emit _ _ _ _ => true | _ => false end.

Definition is_sample (c : call) : bool :=
  match c with GetWorldPosition _ => true | _ => false end.

Definition count_calls (f : call -> bool) (cs : list call) : nat :=
  length (List.filter f cs).

Definition is_relay_emit (c : call) : bool :=
  match c with
  | Emit el name VNull false => String.eqb name "hide-complete"
  | _ => false
  end.

(** The arguments a layer was called with, and the delay among them
    (the first argument, 0 when left out). *)
Fixpoint args_for (l : layer) (xs : list (layer * list number)) : option (list number) :=
  match xs with
  | [] => None
  | (l', args) :: rest =>
      match l, l' with
      | Background, Background | Header, Header => Some args
      | _, _ => args_for l rest
      end
  end.

Definition delay_of (args : list number) : number := nth 0 args 0%float.
Definition stagger_of (args : list number) : number := nth 1 args 0%float.

Definition delay_for (l : layer) (xs : list (layer * list number)) : number :=
  delay_of (default [] (args_for l xs)).

(** ** Monitors of a log *)

(** A monitor reads a log call by call, from a state; [None] rejects the
    log. *)
Fixpoint watch {Q} (step : Q -> call -> option Q) (q : Q) (cs : list call)
  : option Q :=
  match cs with
  | [] => Some q
  | c :: rest =>
      match step q c with
      | Some q' => watch step q' rest
      | None => None
      end
  end.

(** What a call of the log does to the header mesh: the mesh after the
    call and the events it raised to its subscribers; [None] for a call
    that is not made on the header. *)
Definition header_call {M} `{!CardMesh M} (c : call) (hd : M) : option (M * list string) :=
  match c with
  | MeshShow Header args => Some (mesh_show args hd)
  | MeshHide Header args => Some (mesh_hide args hd)
  | MeshTick Header dt => Some (mesh_tick dt hd)
  | _ => None
  end.

Definition hide_completes (names : list string) : nat :=
  length (List.filter (fun name => String.eqb name "hide-complete") names).

(** The 'hide-complete' events the header mesh raises over the calls of a
    log, when the calls made on the header are made again on [hd]. *)
Fixpoint completed_hides {M} `{!CardMesh M} (hd : M) (cs : list call) : nat :=
  match cs with
  | [] => 0
  | c :: rest =>
      match header_call c hd with
      | Some r => hide_completes r.2 + completed_hides r.1 rest
      | None => completed_hides hd rest
      end
  end.

(** The relay monitor. Its state is the header mesh, on which it makes
    the calls the log makes on the header, and the number of
    'hide-complete' events the mesh has raised that are not answered yet.
    While one is waiting the only call it accepts is
    [el.emit('hide-complete', null, false)], which answers one; at any
    other time it accepts no [Emit]. The [Raised] entries are the host's
    record of what a mesh raised, not calls of the component: the monitor
    does not read them. *)
Definition relay_step {M} `{!CardMesh M} (q : M * nat) (c : call) : option (M * nat) :=
  match c with
  | Raised _ _ => Some q
  | Emit _ _ _ _ =>
      match q.2 with
      | 0 => None
      | S n => if is_relay_emit c then Some (q.1, n) else None
      end
  | _ =>
      match q.2 with
      | 0 =>
          match header_call c q.1 with
          | Some r => Some (r.1, hide_completes r.2)
          | None => Some q
          end
      | S _ => None
      end
  end.

(** Between two programs of the component the monitor holds the
    component's header and no event is waiting. *)
Definition at_header {M} (q : M * nat) (s : card M) : Prop :=
  q = (header s, 0).

(** The timing monitor follows the calls made on the header: [Revealed]
    from a [show] on, [Dismissing] from the first [hide] after it, [Done]
    from the emitted event on. It accepts an emitted event only while
    [Dismissing]: not during a reveal, and not a second time before the
    header is shown again. *)
Inductive phase : Type := Revealed | Dismissing | Done.

(** The phase after a [hide] of the header. *)
Definition dismiss (ph : phase) : phase :=
  match ph with Revealed | Dismissing => Dismissing | Done => Done end.

Definition timing_step (ph : phase) (c : call) : option phase :=
  match c with
  | MeshShow Header _ => Some Revealed
  | MeshHide Header _ => Some (dismiss ph)
  | Emit _ _ _ _ =>
      match ph with Dismissing => Some Done | _ => None end
  | _ => Some ph
  end.

Definition timely (cs : list call) : Prop :=
  exists ph, watch timing_step Done cs = Some ph.

(** What the reference panel of the header is doing in each phase. *)
Definition paced (ph : phase) (hd : Panel.panel) : Prop :=
  match ph with
  | Revealed => Panel.moving hd <> Panel.Leaving
  | Dismissing => True
  | Done => Panel.animIn hd = 0%float /\ Panel.moving hd <> Panel.Entering
  end.

Definition header_paced (ph : phase) (s : card Panel.panel) : Prop :=
  paced ph (header s).

(** The frames of a log on which the reference panel of the header
    completes a hide, when the calls made on the header are made again on
    [hd]. *)
Fixpoint completions (hd : Panel.panel) (cs : list call) : nat :=
  match cs with
  | [] => 0
  | c :: rest =>
      match header_call c hd with
      | Some r =>
          match c with
          | MeshTick _ dt => if Panel.completes dt hd then 1 else 0
          | _ => 0
          end + completions r.1 rest
      | None => completions hd rest
      end
  end.

(** The calls the listeners and the host add around the methods. *)
Definition quiet (c : call) : bool :=
  match c with
  | AddState _ _ | RemoveState _ _ | Ga _ | UncaughtError => true
  | _ => false
  end.

(** A program [settles] under a monitor and an invariant [I] when, from
    every card in [I], it returns, the monitor accepts the calls it has
    added to the log, and the card is in [I] again; it [ends] when it does
    so or throws after such calls. *)
Definition settles {M Q} (step : Q -> call -> option Q) (I : Q -> card M -> Prop)
    (m : js (card M) unit) : Prop :=
  forall q s, I q s ->
    exists s' delta q',
      m s = Returned () s' /\
      calls (host s') = calls (host s) ++ delta /\
      watch step q delta = Some q' /\
      I q' s'.

Definition ends {M Q A} (step : Q -> call -> option Q) (I : Q -> card M -> Prop)
    (m : js (card M) A) : Prop :=
  forall q s, I q s ->
    exists s' delta q',
      ((exists a, m s = Returned a s') \/ m s = Thrown s') /\
      calls (host s') = calls (host s) ++ delta /\
      watch step q delta = Some q' /\
      I q' s'.

(** A program that throws nothing: it returns or runs out of fuel. *)
Definition harmless {S A} (m : js S A) : Prop :=
  forall s s', m s <> Thrown s'.

(** The stagger of the reveal mirrored onto the dismissal: each layer
    hides with the arguments the other layer was shown with. *)
Definition mirrored (shows hides : list (layer * list number)) : Prop :=
  args_for Background hides = args_for Header shows /\
  args_for Header hides = args_for Background shows.

(** ** More to read in a log, and in what happens *)

Definition is_ga (c : call) : bool :=
  match c with Ga _ => true | _ => false end.

Definition is_error (c : call) : bool :=
  match c with UncaughtError => true | _ => false end.

Definition additions_in (cs : list call) : list (entity * string) :=
  flat_map (fun c => match c with AddState e st => [(e, st)] | _ => [] end) cs.

Definition is_frame (x : stimulus) : bool :=
  match x with Frame _ _ => true | _ => false end.

(** [el.addState('visible')]: the request to reveal the card. *)
Definition is_reveal_request (x : stimulus) : bool :=
  match x with ElAddState st => String.eqb st "visible" | _ => false end.

(** Frames at the given times and time steps, and a mesh advanced by a
    list of time steps. *)
Definition frames (ts : list (number * number)) : list stimulus :=
  map (fun tdt => Frame tdt.1 tdt.2) ts.

Definition advanced {M} `{!CardMesh M} (dts : list number) (m : M) : M :=
  fold_left (fun m dt => (mesh_tick dt m).1) dts m.

(** The states the methods set together: the scene is modal exactly when
    the title text is visible, and, [in_step], exactly when the element
    holds 'visible'. *)
Definition title_in_step (p : page) : Prop :=
  "modal" ∈ scene_states p <-> "visible" ∈ text_states p.

Definition in_step (p : page) : Prop :=
  ("visible" ∈ el_states p <-> "modal" ∈ scene_states p) /\
  ("visible" ∈ el_states p <-> "visible" ∈ text_states p).

(** * Proofs *)

(** ** Logs *)

Lemma record_calls_nil p : record_calls [] p = p.
Proof. destruct p; unfold record_calls; cbn; by rewrite app_nil_r. Qed.

Lemma record_calls_app cs1 cs2 p :
  record_calls cs2 (record_calls cs1 p) = record_calls (cs1 ++ cs2) p.
Proof. unfold record_calls; cbn; by rewrite app_assoc. Qed.

Lemma raised_app l xs ys : raised l (xs ++ ys) = raised l xs ++ raised l ys.
Proof. apply flat_map_app. Qed.

Lemma show_calls_in_app xs ys :
  show_calls_in (xs ++ ys) = show_calls_in xs ++ show_calls_in ys.
Proof. apply flat_map_app. Qed.

Lemma hide_calls_in_app xs ys :
  hide_calls_in (xs ++ ys) = hide_calls_in xs ++ hide_calls_in ys.
Proof. apply flat_map_app. Qed.

Lemma removals_in_app xs ys :
  removals_in (xs ++ ys) = removals_in xs ++ removals_in ys.
Proof. apply flat_map_app. Qed.

Lemma additions_in_app xs ys :
  additions_in (xs ++ ys) = additions_in xs ++ additions_in ys.
Proof. apply flat_map_app. Qed.

Lemma ga_calls_in_app xs ys :
  ga_calls_in (xs ++ ys) = ga_calls_in xs ++ ga_calls_in ys.
Proof. apply flat_map_app. Qed.

Lemma show_calls_in_cons c cs :
  show_calls_in (c :: cs) =
  match c with MeshShow l args => [(l, args)] | _ => [] end ++ show_calls_in cs.
Proof. reflexivity. Qed.

Lemma hide_calls_in_cons c cs :
  hide_calls_in (c :: cs) =
  match c with MeshHide l args => [(l, args)] | _ => [] end ++ hide_calls_in cs.
Proof. reflexivity. Qed.

Lemma removals_in_cons c cs :
  removals_in (c :: cs) =
  match c with RemoveState e st => [(e, st)] | _ => [] end ++ removals_in cs.
Proof. reflexivity. Qed.

Lemma additions_in_cons c cs :
  additions_in (c :: cs) =
  match c with AddState e st => [(e, st)] | _ => [] end ++ additions_in cs.
Proof. reflexivity. Qed.

Lemma ga_calls_in_cons c cs :
  ga_calls_in (c :: cs) =
  match c with Ga args => [args] | _ => [] end ++ ga_calls_in cs.
Proof. reflexivity. Qed.

(** The events a mesh raises, and the element's event after them, are
    none of the calls read above. *)
Lemma raised_cons l n names :
  raised l (n :: names) = relay_calls l n ++ raised l names.
Proof. reflexivity. Qed.

Lemma show_calls_in_raised l names : show_calls_in (raised l names) = [].
Proof.
  induction names as [|n names IH]; [done|].
  rewrite raised_cons, show_calls_in_app, IH.
  destruct l; cbn; [done|]. by destruct (String.eqb n "hide-complete").
Qed.

Lemma hide_calls_in_raised l names : hide_calls_in (raised l names) = [].
Proof.
  induction names as [|n names IH]; [done|].
  rewrite raised_cons, hide_calls_in_app, IH.
  destruct l; cbn; [done|]. by destruct (String.eqb n "hide-complete").
Qed.

Lemma removals_in_raised l names : removals_in (raised l names) = [].
Proof.
  induction names as [|n names IH]; [done|].
  rewrite raised_cons, removals_in_app, IH.
  destruct l; cbn; [done|]. by destruct (String.eqb n "hide-complete").
Qed.

Lemma additions_in_raised l names : additions_in (raised l names) = [].
Proof.
  induction names as [|n names IH]; [done|].
  rewrite raised_cons, additions_in_app, IH.
  destruct l; cbn; [done|]. by destruct (String.eqb n "hide-complete").
Qed.

Lemma ga_calls_in_raised l names : ga_calls_in (raised l names) = [].
Proof.
  induction names as [|n names IH]; [done|].
  rewrite raised_cons, ga_calls_in_app, IH.
  destruct l; cbn; [done|]. by destruct (String.eqb n "hide-complete").
Qed.

Lemma count_calls_app f xs ys :
  count_calls f (xs ++ ys) = (count_calls f xs + count_calls f ys)%nat.
Proof. unfold count_calls. by rewrite List.filter_app, length_app. Qed.

Lemma count_calls_nil f : count_calls f [] = 0.
Proof. reflexivity. Qed.

Lemma count_calls_cons f c cs :
  count_calls f (c :: cs) = ((if f c then 1 else 0) + count_calls f cs)%nat.
Proof. unfold count_calls. cbn. by destruct (f c). Qed.

Lemma count_samples_raised l names : count_calls is_sample (raised l names) = 0.
Proof.
  induction names as [|n names IH]; [done|].
  rewrite raised_cons, count_calls_app, IH.
  destruct l; [done|]. unfold relay_calls.
  by destruct (String.eqb n "hide-complete").
Qed.

Lemma count_ga_raised l names : count_calls is_ga (raised l names) = 0.
Proof.
  induction names as [|n names IH]; [done|].
  rewrite raised_cons, count_calls_app, IH.
  destruct l; [done|]. unfold relay_calls.
  by destruct (String.eqb n "hide-complete").
Qed.

Lemma count_errors_raised l names : count_calls is_error (raised l names) = 0.
Proof.
  induction names as [|n names IH]; [done|].
  rewrite raised_cons, count_calls_app, IH.
  destruct l; [done|]. unfold relay_calls.
  by destruct (String.eqb n "hide-complete").
Qed.

Lemma watch_app {Q} (step : Q -> call -> option Q) q xs ys :
  watch step q (xs ++ ys) =
  match watch step q xs with
  | Some q' => watch step q' ys
  | None => None
  end.
Proof.
  revert q. induction xs as [|c xs IH]; intros q; [done|].
  cbn. destruct (step q c); [apply IH|done].
Qed.

Lemma watch_through {Q} (step : Q -> call -> option Q) q q' q'' xs ys :
  watch step q xs = Some q' ->
  watch step q' ys = Some q'' ->
  watch step q (xs ++ ys) = Some q''.
Proof. intros Hx Hy. by rewrite watch_app, Hx. Qed.

(** ** Running the primitives *)

Section Stepping.

Context {M : Type} `{!CardMesh M}.
Variable rt : runtime.

Abbreviation prog := (js (card M)).

Lemma bind_run {A B} (m : prog A) (k : A -> prog B) s :
  (m ≫= k) s =
  match m s with
  | Returned a s' => k a s'
  | Thrown s' => Thrown s'
  | OutOfFuel => OutOfFuel
  end.
Proof. reflexivity. Qed.

Lemma log_run c (s : card M) : log c s = Returned () (touch (record_calls [c]) s).
Proof. reflexivity. Qed.

Lemma touch_calls cs1 cs2 (s : card M) :
  touch (record_calls cs2) (touch (record_calls cs1) s) =
  touch (record_calls (cs1 ++ cs2)) s.
Proof. unfold touch; cbn. by rewrite record_calls_app. Qed.

Lemma relay_run l name (s : card M) :
  relay l name s = Returned () (touch (record_calls (relay_calls l name)) s).
Proof.
  unfold relay, relay_calls, emit. rewrite bind_run, log_run.
  destruct l; [reflexivity|].
  destruct (String.eqb name "hide-complete"); [|reflexivity].
  by rewrite log_run, touch_calls.
Qed.

Lemma raise_run l names (s : card M) :
  raise l names s = Returned () (touch (record_calls (raised l names)) s).
Proof.
  unfold raise, raised. revert s. induction names as [|name names IH]; intros s.
  - cbn. unfold touch. rewrite record_calls_nil. by destruct s.
  - cbn [for_each flat_map]. by rewrite bind_run, relay_run, IH, touch_calls.
Qed.

Lemma gets_run {A} (f : card M -> A) s : gets f s = Returned (f s) s.
Proof. reflexivity. Qed.

Lemma modify_run (f : card M -> card M) s : modify f s = Returned () (f s).
Proof. reflexivity. Qed.

Lemma ret_run {A} (a : A) (s : card M) : (mret a : prog A) s = Returned a s.
Proof. reflexivity. Qed.

Lemma on_mesh_run l c f (s : card M) :
  on_mesh l c f s =
  Returned ()
    (touch (record_calls (c :: raised l (f (mesh l s)).2))
       (set_mesh l (f (mesh l s)).1 s)).
Proof.
  unfold on_mesh.
  rewrite bind_run, log_run; cbv beta iota.
  rewrite bind_run, gets_run; cbv beta iota.
  rewrite bind_run, modify_run; cbv beta iota.
  rewrite raise_run. destruct s as [bg hd p], l; unfold touch; cbn;
    by rewrite record_calls_app.
Qed.

Lemma for_each_one {A} (f : A -> prog unit) x (s : card M) :
  for_each f [x] s =
  match f x s with
  | Returned _ s' => Returned () s'
  | Thrown s' => Thrown s'
  | OutOfFuel => OutOfFuel
  end.
Proof. cbn [for_each]. rewrite bind_run. by destruct (f x s). Qed.

Lemma setPosition_run e v (s : card M) :
  setPosition e v s =
  Returned ()
    (touch (with_position e v)
       (touch (record_calls [SetAttribute e "position" (xyz v)]) s)).
Proof. reflexivity. Qed.

Lemma setVisible_run b (s : card M) :
  setVisible b s =
  Returned ()
    (touch (with_visible b)
       (touch (record_calls [SetAttribute el "visible" (VBool b)]) s)).
Proof. reflexivity. Qed.

Lemma call_ga_run args (s : card M) :
  call_ga rt args s =
  match ga rt with
  | GaReturns => Returned () (touch (record_calls [Ga args]) s)
  | GaMissing => Thrown s
  | GaThrows => Thrown (touch (record_calls [Ga args]) s)
  end.
Proof. unfold call_ga. by destruct (ga rt). Qed.

(** *** Delivery *)

Lemma deliver_unfold fuel e ev :
  deliver rt fuel e ev =
  for_each (fun l => reported (run_listener rt (below rt fuel) l ev))
    (listeners e (type ev)).
Proof. by destruct fuel. Qed.

Lemma below_next fuel : below rt (S fuel) = deliver rt fuel.
Proof. reflexivity. Qed.

(** An event that no listener is registered for on its way up. *)
Lemma below_nobody fuel e ev (s : card M) :
  listeners e (type ev) = [] -> below rt fuel e ev s = Returned () s.
Proof.
  intros H. destruct fuel as [|n]; cbn [below].
  - unfold exhausted. by rewrite H.
  - by rewrite deliver_unfold, H.
Qed.

(** *** Adding and removing states *)

Lemma addState_present dl e st (s : card M) :
  st ∈ states_of e (host s) ->
  addState dl e st s = Returned () (touch (record_calls [AddState e st]) s).
Proof.
  intros Hin. unfold addState.
  rewrite bind_run, log_run; cbv beta iota.
  rewrite bind_run, gets_run; cbv beta iota.
  rewrite bool_decide_eq_true_2; [done|]. by destruct s.
Qed.

Lemma addState_absent dl e st (s : card M) :
  st ∉ states_of e (host s) ->
  addState dl e st s =
  dl e (state_event "stateadded" st)
    (touch (with_states e (fun ss => {[st]} ∪ ss))
       (touch (record_calls [AddState e st]) s)).
Proof.
  intros Hout. unfold addState.
  rewrite bind_run, log_run; cbv beta iota.
  rewrite bind_run, gets_run; cbv beta iota.
  rewrite bool_decide_eq_false_2 by (by destruct s).
  unfold on_host. by rewrite bind_run, modify_run.
Qed.

Lemma removeState_present dl e st (s : card M) :
  st ∈ states_of e (host s) ->
  removeState dl e st s =
  dl e (state_event "stateremoved" st)
    (touch (with_states e (fun ss => ss ∖ {[st]}))
       (touch (record_calls [RemoveState e st]) s)).
Proof.
  intros Hin. unfold removeState.
  rewrite bind_run, log_run; cbv beta iota.
  rewrite bind_run, gets_run; cbv beta iota.
  rewrite bool_decide_eq_true_2 by (by destruct s).
  unfold on_host. by rewrite bind_run, modify_run.
Qed.

Lemma removeState_absent dl e st (s : card M) :
  st ∉ states_of e (host s) ->
  removeState dl e st s = Returned () (touch (record_calls [RemoveState e st]) s).
Proof.
  intros Hout. unfold removeState.
  rewrite bind_run, log_run; cbv beta iota.
  rewrite bind_run, gets_run; cbv beta iota.
  rewrite bool_decide_eq_false_2; [done|]. by destruct s.
Qed.

(** The scene is above every listener of the component: its state events
    run none. *)
Lemma addState_scene fuel st (s : card M) :
  addState (below rt fuel) sceneEl st s =
  Returned ()
    (touch (with_states sceneEl (fun ss => {[st]} ∪ ss))
       (touch (record_calls [AddState sceneEl st]) s)).
Proof.
  destruct (decide (st ∈ states_of sceneEl (host s))) as [Hin | Hout].
  - rewrite addState_present by done.
    destruct s as [bg hd []]. unfold touch, record_calls. cbn in *.
    f_equal. f_equal. f_equal. set_solver.
  - rewrite addState_absent by done. by rewrite below_nobody.
Qed.

Lemma removeState_scene fuel st (s : card M) :
  removeState (below rt fuel) sceneEl st s =
  Returned ()
    (touch (with_states sceneEl (fun ss => ss ∖ {[st]}))
       (touch (record_calls [RemoveState sceneEl st]) s)).
Proof.
  destruct (decide (st ∈ states_of sceneEl (host s))) as [Hin | Hout].
  - rewrite removeState_present by done. by rewrite below_nobody.
  - rewrite removeState_absent by done.
    destruct s as [bg hd []]. unfold touch, record_calls. cbn in *.
    f_equal. f_equal. f_equal. set_solver.
Qed.

(** *** Programs that throw nothing *)

Lemma harmless_bind {A B} (m : prog A) (k : A -> prog B) :
  harmless m -> (forall a, harmless (k a)) -> harmless (m ≫= k).
Proof.
  intros Hm Hk s s'. rewrite bind_run.
  destruct (m s) as [a s1| s1|] eqn:E; [apply Hk|by apply Hm in E|done].
Qed.

Lemma harmless_ret {A} (a : A) : harmless (mret a : prog A).
Proof. done. Qed.

Lemma harmless_modify f : harmless (modify f : prog unit).
Proof. done. Qed.

Lemma harmless_gets {A} (f : card M -> A) : harmless (gets f : prog A).
Proof. done. Qed.

Lemma harmless_for_each {A} (f : A -> prog unit) xs :
  (forall x, harmless (f x)) -> harmless (for_each f xs).
Proof.
  intros Hf. induction xs as [|x xs IH]; [done|].
  cbn [for_each]. apply harmless_bind; [apply Hf|done].
Qed.

Lemma harmless_reported (m : prog unit) : harmless (reported m).
Proof. intros s s'. unfold reported. by destruct (m s). Qed.

Lemma harmless_below fuel e ev : harmless (below rt fuel e ev).
Proof.
  destruct fuel as [|n]; cbn [below].
  - apply harmless_for_each. done.
  - rewrite deliver_unfold. apply harmless_for_each. intros l.
    apply harmless_reported.
Qed.

Lemma harmless_addState fuel e st : harmless (addState (below rt fuel) e st).
Proof.
  unfold addState. apply harmless_bind; [done|]. intros _.
  apply harmless_bind; [done|]. intros [|]; [done|].
  apply harmless_bind; [done|]. intros _. apply harmless_below.
Qed.

Lemma harmless_removeState fuel e st : harmless (removeState (below rt fuel) e st).
Proof.
  unfold removeState. apply harmless_bind; [done|]. intros _.
  apply harmless_bind; [done|]. intros [|]; [|done].
  apply harmless_bind; [done|]. intros _. apply harmless_below.
Qed.

Lemma harmless_on_mesh l c (f : M -> M * list string) : harmless (on_mesh l c f).
Proof. intros s s'. by rewrite on_mesh_run. Qed.

Lemma harmless_onShow fuel : harmless (onShow rt (below rt fuel)).
Proof.
  unfold onShow.
  repeat first
    [ apply harmless_addState | apply harmless_on_mesh | done
    | apply harmless_bind; [|intros ?] ].
Qed.

Lemma harmless_onHide fuel : harmless (onHide (below rt fuel)).
Proof.
  unfold onHide.
  repeat first
    [ apply harmless_removeState | apply harmless_on_mesh | done
    | apply harmless_bind; [|intros ?] ].
Qed.

(** A listener that throws nothing is not reported. *)
Lemma reported_harmless (m : prog unit) s : harmless m -> reported m s = m s.
Proof. intros Hm. unfold reported. destruct (m s) eqn:E; [done| |done]. by apply Hm in E. Qed.

End Stepping.

(** ** Tactics *)

Tactic Notation "step" uconstr(lemma) := rewrite bind_run, lemma; cbv beta iota.

(** Unfolds the changes made to a card whose fields are at hand. *)
Ltac settle :=
  cbv beta iota delta
    [touch set_mesh mesh with_states with_position with_visible record_calls
     background header host el_states scene_states text_states el_visible
     el_position dummy_position text_value calls states_of];
  rewrite <- ?app_assoc; cbn [app].

Ltac expose s := destruct s as [? ? []]; settle.

(** Closes an equation between two outcomes that differ in how their
    sets of states are written. *)
Ltac same := f_equal; f_equal; try done; f_equal; first [done | set_solver].

(** The same, leaving the log as the runs of calls it is made of. *)
Ltac arrange :=
  cbv beta iota delta
    [touch set_mesh mesh with_states with_position with_visible record_calls
     background header host el_states scene_states text_states el_visible
     el_position dummy_position text_value calls states_of];
  rewrite <- ?app_assoc.

(** Reads a log that is made of calls, runs of calls and raised events. *)
Ltac read_log :=
  repeat progress
    (rewrite ?count_calls_app, ?show_calls_in_app, ?hide_calls_in_app,
       ?removals_in_app, ?additions_in_app, ?ga_calls_in_app;
     rewrite ?count_ga_raised, ?count_errors_raised, ?count_samples_raised,
       ?show_calls_in_raised, ?hide_calls_in_raised, ?removals_in_raised,
       ?additions_in_raised, ?ga_calls_in_raised;
     rewrite ?count_calls_cons, ?count_calls_nil;
     cbn [app is_ga is_error is_sample Nat.add
          show_calls_in hide_calls_in removals_in additions_in ga_calls_in
          flat_map]).

(** ** The methods, run on any card *)

Section Methods.

Context {M : Type} `{!CardMesh M}.
Variable rt : runtime.

Abbreviation prog := (js (card M)).

Lemma issued_app {A} (a : A) (s s' : card M) delta :
  calls (host s') = calls (host s) ++ delta ->
  issued (Returned a s') s = delta.
Proof.
  intros E. unfold issued. cbn [outcome_state]. rewrite E.
  by rewrite drop_app_length.
Qed.

(** What one frame does. *)
Lemma tick_run (t dt : number) (s : card M) :
  let bg := mesh_tick dt (background s) in
  let hd := mesh_tick dt (header s) in
  let flag := (0 <? mesh_animIn hd.1)%float in
  tick t dt s =
    Returned ()
      (Card bg.1 hd.1
         (Page (el_states (host s)) (scene_states (host s)) (text_states (host s))
               flag
               (el_position (host s)) (dummy_position (host s))
               (text_value (host s))
               (calls (host s) ++
                [MeshTick Background dt] ++ raised Background bg.2 ++
                [MeshTick Header dt] ++ raised Header hd.2 ++
                [SetAttribute el "visible" (VBool flag)]))).
Proof.
  intros bg hd flag. unfold tick, mesh_tick_call.
  step on_mesh_run. step on_mesh_run. step gets_run.
  rewrite setVisible_run. subst bg hd flag. by expose s.
Qed.

(** A number that equals 0 is not above 0 (and neither is -0). *)
Lemma zero_is_not_positive (x : number) :
  (x =? 0)%float = true -> (0 <? x)%float = false.
Proof.
  rewrite FloatAxioms.eqb_spec, FloatAxioms.ltb_spec.
  change (Prim2SF 0) with (S754_zero false).
  destruct (Prim2SF x) as [[]|[]| |[] ? ?]; cbn; congruence.
Qed.

(** C1. On every frame [tick] advances the background by [dt], then the
    header by [dt], then sets the element's 'visible' attribute to
    (the header's animIn > 0), whatever the card is doing; when the
    header's animIn is 0 after the advance, the attribute is false on that
    same frame. *)
Theorem tick_sets_visible_from_header (t dt : number) (s : card M) :
  let bg := mesh_tick dt (background s) in
  let hd := mesh_tick dt (header s) in
  let flag := (0 <? mesh_animIn hd.1)%float in
  tick t dt s =
    Returned ()
      (Card bg.1 hd.1
         (Page (el_states (host s)) (scene_states (host s)) (text_states (host s))
               flag
               (el_position (host s)) (dummy_position (host s))
               (text_value (host s))
               (calls (host s) ++
                [MeshTick Background dt] ++ raised Background bg.2 ++
                [MeshTick Header dt] ++ raised Header hd.2 ++
                [SetAttribute el "visible" (VBool flag)])))
  /\ ((mesh_animIn hd.1 =? 0)%float = true -> flag = false).
Proof.
  intros bg hd flag. split; [apply tick_run | apply zero_is_not_positive].
Qed.

(** *** The listeners, whatever they run *)

(** A 'stateremoved' event for 'visible' raised on the element or on an
    entity inside it runs the state-removed listener of the element, and
    so [onHide]. *)
Lemma deliver_stateremoved fuel e (s : card M) :
  In el (path e) ->
  deliver rt fuel e (state_event "stateremoved" "visible") s =
  onHide (below rt fuel) s.
Proof.
  intros He. rewrite deliver_unfold.
  assert (L : listeners e (type (state_event "stateremoved" "visible")) =
              [HideOnStateRemoved]) by (destruct e; cbn in He; by intuition).
  rewrite L, for_each_one, reported_harmless.
  - unfold run_listener, detail_state.
    cbn [get_field detail state_event lookup_field String.eqb Ascii.eqb Bool.eqb].
    rewrite bind_run, ret_run.
    cbn [differs_from_string String.eqb Ascii.eqb Bool.eqb negb].
    by destruct (onHide (below rt fuel) s) as [[]| |].
  - unfold run_listener, detail_state.
    cbn [get_field detail state_event lookup_field String.eqb Ascii.eqb Bool.eqb].
    apply harmless_bind; [done|]. intros st.
    destruct (differs_from_string st "visible"); [done|apply harmless_onHide].
Qed.

(** A 'stateadded' event for 'visible' raised on the element or on an
    entity inside it runs the state-added listener of the element: the
    analytics call and, when it returns, [onShow]. *)
Lemma deliver_stateadded fuel e (s : card M) :
  In el (path e) ->
  deliver rt fuel e (state_event "stateadded" "visible") s =
  match ga rt with
  | GaReturns => onShow rt (below rt fuel) (touch (record_calls [Ga opened]) s)
  | GaMissing => Returned () (touch (record_calls [UncaughtError]) s)
  | GaThrows => Returned () (touch (record_calls [Ga opened; UncaughtError]) s)
  end.
Proof.
  intros He. rewrite deliver_unfold.
  assert (L : listeners e (type (state_event "stateadded" "visible")) =
              [ShowOnStateAdded]) by (destruct e; cbn in He; by intuition).
  rewrite L, for_each_one. unfold reported, run_listener, detail_state.
  cbn [get_field detail state_event lookup_field String.eqb Ascii.eqb Bool.eqb].
  rewrite bind_run, ret_run.
  cbn [differs_from_string String.eqb Ascii.eqb Bool.eqb negb].
  rewrite bind_run, call_ga_run. fold opened.
  destruct (ga rt).
  - pose proof (harmless_onShow rt fuel (touch (record_calls [Ga opened]) s)) as Hh.
    destruct (onShow rt (below rt fuel) _) as [[]|s'|]; [done| |done].
    by destruct (Hh s').
  - by rewrite log_run.
  - by rewrite log_run, touch_calls.
Qed.

Lemma deliver_cursor_up fuel (s : card M) :
  deliver rt fuel backEl cursor_up s =
  match ga rt with
  | GaReturns => onHide (below rt fuel) (touch (record_calls [Ga dismissed]) s)
  | GaMissing => Returned () (touch (record_calls [UncaughtError]) s)
  | GaThrows => Returned () (touch (record_calls [Ga dismissed; UncaughtError]) s)
  end.
Proof.
  rewrite deliver_unfold.
  change (listeners backEl (type cursor_up)) with [HideOnCursorUp].
  rewrite for_each_one. unfold reported, run_listener.
  rewrite bind_run, call_ga_run. fold dismissed.
  destruct (ga rt).
  - pose proof (harmless_onHide rt fuel (touch (record_calls [Ga dismissed]) s)) as Hh.
    destruct (onHide (below rt fuel) _) as [[]|s'|]; [done| |done].
    by destruct (Hh s').
  - by rewrite log_run.
  - by rewrite log_run, touch_calls.
Qed.

(** C8, as the code has it. The listeners call [ga] first and handle no
    error. When [ga] returns, [onShow] (on 'stateadded') and [onHide] (on
    the click) run after it; when [ga] is not defined or throws, the
    listener ends there, the host reports the error, and neither [onShow]
    nor [onHide] runs. The 'stateremoved' listener makes no analytics
    call and runs [onHide] whatever [ga] does. *)
Theorem analytics_failure_ends_listener (fuel : nat) (s : card M) :
  deliver rt (S fuel) el (state_event "stateadded" "visible") s =
    match ga rt with
    | GaReturns => onShow rt (deliver rt fuel) (touch (record_calls [Ga opened]) s)
    | GaMissing => Returned () (touch (record_calls [UncaughtError]) s)
    | GaThrows => Returned () (touch (record_calls [Ga opened; UncaughtError]) s)
    end
  /\ deliver rt (S (S fuel)) backEl cursor_up s =
    match ga rt with
    | GaReturns =>
        onHide (deliver rt (S fuel)) (touch (record_calls [Ga dismissed]) s)
    | GaMissing => Returned () (touch (record_calls [UncaughtError]) s)
    | GaThrows => Returned () (touch (record_calls [Ga dismissed; UncaughtError]) s)
    end
  /\ deliver rt (S (S fuel)) el (state_event "stateremoved" "visible") s =
    onHide (deliver rt (S fuel)) s.
Proof.
  split; [apply (deliver_stateadded (S fuel) el); cbn; tauto|].
  split; [apply (deliver_cursor_up (S (S fuel)))|].
  apply (deliver_stateremoved (S (S fuel)) el). cbn. tauto.
Qed.

(** *** onShow *)

(** The calls of [onShow] after the two states are added. *)
Lemma revealing_run (s : card M) :
  let bg := mesh_show [0.25%float; 0.05%float] (background s) in
  let hd := mesh_show [0.05%float] (header s) in
  let anchor := (0%float, 0%float, getCardZOffset rt) in
  (show Background [0.25%float; 0.05%float] ;;
   show Header [0.05%float] ;;
   log GetCardZOffset ;;
   setPosition positionDummy (0%float, 0%float, getCardZOffset rt) ;;
   log (GetWorldPosition positionDummy) ;;
   uiPosition ← gets (fun s => getWorldPosition rt (dummy_position (host s)));
   setPosition el uiPosition ;;
   log LookAtTargetUpdate) s =
    Returned ()
      (Card bg.1 hd.1
         (Page (el_states (host s)) (scene_states (host s)) (text_states (host s))
               (el_visible (host s))
               (getWorldPosition rt anchor) anchor
               (text_value (host s))
               (calls (host s) ++ revealing rt (background s) (header s)))).
Proof.
  intros bg hd anchor. unfold show.
  step on_mesh_run. step on_mesh_run.
  step log_run. step setPosition_run. step log_run. step gets_run.
  step setPosition_run. rewrite log_run.
  subst bg hd anchor. unfold revealing. by expose s.
Qed.

(** [onShow] on a card whose scene is modal and whose title text is
    visible already: no state changes, no listener runs. *)
Lemma onShow_again dl (s : card M) :
  "modal" ∈ scene_states (host s) ->
  "visible" ∈ text_states (host s) ->
  let anchor := (0%float, 0%float, getCardZOffset rt) in
  onShow rt dl s =
    Returned ()
      (Card (mesh_show [0.25%float; 0.05%float] (background s)).1
            (mesh_show [0.05%float] (header s)).1
         (Page (el_states (host s)) (scene_states (host s)) (text_states (host s))
               (el_visible (host s))
               (getWorldPosition rt anchor) anchor
               (text_value (host s))
               (calls (host s) ++ reveal rt (background s) (header s)))).
Proof.
  intros Hm Hv anchor. unfold onShow.
  step addState_present; [|by destruct s as [? ? []]].
  step addState_present; [|by destruct s as [? ? []]].
  rewrite revealing_run. subst anchor. unfold reveal. by expose s.
Qed.

(** What one run of [onShow] does. When the title text does not hold
    'visible', adding it runs the state-added listener of the element
    inside this run: its analytics call and, when that returns, a whole
    [onShow], before the [show] calls of this one. *)
Lemma onShow_run (fuel : nat) (s : card M) :
  let p := host s in
  let fresh := bool_decide ("visible" ∉ text_states p) in
  let twice := fresh && ga_returns rt in
  let anchor := (0%float, 0%float, getCardZOffset rt) in
  onShow rt (deliver rt fuel) s =
    Returned ()
      (Card (after_shows [0.25%float; 0.05%float] (if twice then 2 else 1)
               (background s))
            (after_shows [0.05%float] (if twice then 2 else 1) (header s))
         (Page (el_states p)
               ({["modal"]} ∪ scene_states p)
               ({["visible"]} ∪ text_states p)
               (el_visible p)
               (getWorldPosition rt anchor) anchor
               (text_value p)
               (calls p ++
                [AddState sceneEl "modal"; AddState headerText "visible"] ++
                (if fresh then reveal_answer rt (background s) (header s) else []) ++
                revealing rt
                  (after_shows [0.25%float; 0.05%float] (if twice then 1 else 0)
                     (background s))
                  (after_shows [0.05%float] (if twice then 1 else 0) (header s))))).
Proof.
  intros p fresh twice anchor. subst p fresh twice anchor.
  destruct s as [bg hd [els scs txs vis pos dpos tv cs]].
  unfold onShow. change (deliver rt fuel) with (below rt (S fuel)).
  step addState_scene.
  cbn [host text_states]. case_bool_decide as Hfresh.
  - rewrite bind_run, addState_absent by (settle; set_solver).
    rewrite below_next, deliver_stateadded by (cbn; tauto).
    unfold reveal_answer, ga_returns. destruct (ga rt); cbn [andb].
    + rewrite onShow_again by (settle; set_solver). cbv beta iota zeta.
      rewrite revealing_run. unfold reveal. settle.
      cbn [after_shows Nat.iter]. by rewrite <- ?app_assoc.
    + rewrite revealing_run. settle. cbn [after_shows Nat.iter]. done.
    + rewrite revealing_run. settle. cbn [after_shows Nat.iter]. done.
  - rewrite bind_run, addState_present by (settle; set_solver).
    rewrite revealing_run. settle. cbn [after_shows Nat.iter andb].
    same.
Qed.

(** *** onHide *)

(** [onHide] on a card whose element and title text do not hold
    'visible': no listener runs inside it. *)
Lemma onHide_at_rest (fuel : nat) (s : card M) :
  "visible" ∉ el_states (host s) ->
  "visible" ∉ text_states (host s) ->
  onHide (below rt fuel) s =
    Returned ()
      (Card (mesh_hide [] (background s)).1
            (mesh_hide [0.05%float; 0.25%float] (header s)).1
         (Page (el_states (host s))
               (scene_states (host s) ∖ {["modal"]})
               (text_states (host s))
               (el_visible (host s))
               (el_position (host s)) (dummy_position (host s))
               (text_value (host s))
               (calls (host s) ++ dismissal (background s) (header s)))).
Proof.
  intros He Ht. destruct s as [bg hd [els scs txs vis pos dpos tv cs]].
  unfold onHide, hide.
  step removeState_scene.
  rewrite bind_run, removeState_absent by (settle; set_solver).
  rewrite bind_run, removeState_absent by (settle; set_solver).
  step on_mesh_run. rewrite on_mesh_run.
  unfold dismissal, hiding. by settle.
Qed.

(** [onHide] on a card whose element does not hold 'visible'. When the
    title text holds it, its removal reaches the state-removed listener of
    the element, which runs [onHide] inside this run. *)
Lemma onHide_unheard (fuel : nat) (s : card M) :
  "visible" ∉ el_states (host s) ->
  let p := host s in
  let text_held := bool_decide ("visible" ∈ text_states p) in
  let n := if text_held then 2 else 1 in
  onHide (below rt (S fuel)) s =
    Returned ()
      (Card (after_hides [] n (background s))
            (after_hides [0.05%float; 0.25%float] n (header s))
         (Page (el_states p)
               (scene_states p ∖ {["modal"]})
               (text_states p ∖ {["visible"]})
               (el_visible p) (el_position p) (dummy_position p) (text_value p)
               (calls p ++ title_dismissal text_held (background s) (header s)))).
Proof.
  intros He p text_held n. subst p text_held n.
  destruct s as [bg hd [els scs txs vis pos dpos tv cs]].
  unfold onHide at 1, hide.
  step removeState_scene.
  rewrite bind_run, removeState_absent by (settle; set_solver).
  cbn [host text_states]. case_bool_decide as Ht.
  - rewrite bind_run, removeState_present by (settle; set_solver).
    rewrite below_next, deliver_stateremoved by (cbn; tauto).
    rewrite onHide_at_rest by (settle; set_solver). cbv beta iota.
    step on_mesh_run. rewrite on_mesh_run.
    unfold title_dismissal, dismissal, hiding. settle.
    cbn [after_hides Nat.iter]. same.
  - rewrite bind_run, removeState_absent by (settle; set_solver).
    step on_mesh_run. rewrite on_mesh_run.
    unfold title_dismissal, hiding. settle.
    cbn [after_hides Nat.iter]. same.
Qed.

(** What one run of [onHide] does on any card. When the element holds
    'visible', its removal runs the state-removed listener: a run of
    [onHide] inside this one, which removes the title text's 'visible'
    and is answered in turn. *)
Lemma onHide_run (fuel : nat) (s : card M) :
  let p := host s in
  let el_held := bool_decide ("visible" ∈ el_states p) in
  let text_held := bool_decide ("visible" ∈ text_states p) in
  let inner := if text_held then 2 else 1 in
  let n := if el_held then S inner else inner in
  onHide (deliver rt (S fuel)) s =
    Returned ()
      (Card (after_hides [] n (background s))
            (after_hides [0.05%float; 0.25%float] n (header s))
         (Page (el_states p ∖ {["visible"]})
               (scene_states p ∖ {["modal"]})
               (text_states p ∖ {["visible"]})
               (el_visible p) (el_position p) (dummy_position p) (text_value p)
               (calls p ++
                if el_held
                then
                  [RemoveState sceneEl "modal"; RemoveState el "visible"] ++
                  title_dismissal text_held (background s) (header s) ++
                  [RemoveState headerText "visible"] ++
                  hiding (after_hides [] inner (background s))
                         (after_hides [0.05%float; 0.25%float] inner (header s))
                else title_dismissal text_held (background s) (header s)))).
Proof.
  intros p el_held text_held inner n. subst p el_held text_held inner n.
  change (deliver rt (S fuel)) with (below rt (S (S fuel))).
  cbn [host el_states]. case_bool_decide as He.
  - destruct s as [bg hd [els scs txs vis pos dpos tv cs]].
    unfold onHide at 1, hide.
    step removeState_scene.
    rewrite bind_run, removeState_present by (settle; set_solver).
    rewrite below_next, deliver_stateremoved by (cbn; tauto).
    rewrite onHide_unheard by (settle; set_solver). cbv beta iota zeta.
    rewrite bind_run, removeState_absent by (settle; set_solver).
    step on_mesh_run. rewrite on_mesh_run.
    settle. cbn [host el_states text_states] in *.
    destruct (bool_decide ("visible" ∈ txs));
      unfold hiding; settle; cbn [after_hides Nat.iter]; same.
  - rewrite onHide_unheard by done.
    destruct s as [bg hd [els scs txs vis pos dpos tv cs]].
    settle. cbn [host el_states] in He. same.
Qed.

(** *** What the runs leave in the log *)

Lemma show_calls_in_revealing (bg hd : M) :
  show_calls_in (revealing rt bg hd) = show_pair.
Proof. unfold revealing. by read_log. Qed.

Lemma show_calls_in_answer (bg hd : M) :
  show_calls_in (reveal_answer rt bg hd) = if ga_returns rt then show_pair else [].
Proof.
  unfold reveal_answer, ga_returns, reveal. destruct (ga rt); [|done..].
  rewrite show_calls_in_cons, !show_calls_in_app, show_calls_in_revealing. done.
Qed.

Lemma count_samples_revealing (bg hd : M) :
  count_calls is_sample (revealing rt bg hd) = 1.
Proof. unfold revealing. by read_log. Qed.

Lemma count_samples_answer (bg hd : M) :
  count_calls is_sample (reveal_answer rt bg hd) = if ga_returns rt then 1 else 0.
Proof.
  unfold reveal_answer, ga_returns, reveal. destruct (ga rt); [|done..].
  rewrite count_calls_cons, !count_calls_app, count_samples_revealing. done.
Qed.

Lemma hide_calls_in_hiding (bg hd : M) : hide_calls_in (hiding bg hd) = hide_pair.
Proof. unfold hiding. by read_log. Qed.

Lemma removals_in_hiding (bg hd : M) : removals_in (hiding bg hd) = [].
Proof. unfold hiding. by read_log. Qed.

Lemma hide_calls_in_dismissal (bg hd : M) :
  hide_calls_in (dismissal bg hd) = hide_pair.
Proof. unfold dismissal. by rewrite hide_calls_in_app, hide_calls_in_hiding. Qed.

Lemma hide_calls_in_title_dismissal text_held (bg hd : M) :
  hide_calls_in (title_dismissal text_held bg hd) =
  (if text_held then hide_pair else []) ++ hide_pair.
Proof.
  unfold title_dismissal. destruct text_held.
  - by rewrite !hide_calls_in_app, hide_calls_in_dismissal, hide_calls_in_hiding.
  - by rewrite !hide_calls_in_app, hide_calls_in_hiding.
Qed.

Lemma removals_in_title_dismissal text_held (bg hd : M) :
  removals_in (title_dismissal text_held bg hd) =
  [(sceneEl, "modal"); (el, "visible"); (headerText, "visible")] ++
  (if text_held
   then [(sceneEl, "modal"); (el, "visible"); (headerText, "visible")]
   else []).
Proof.
  unfold title_dismissal, dismissal. destruct text_held.
  - by rewrite !removals_in_app, !removals_in_hiding.
  - by rewrite !removals_in_app, !removals_in_hiding.
Qed.

(** The [show] calls of a run of [onShow]: the staggered pair, once for
    each run of [onShow] it amounts to. *)
Lemma onShow_issues (fuel : nat) (s : card M) :
  let twice := bool_decide ("visible" ∉ text_states (host s)) && ga_returns rt in
  exists s',
    onShow rt (deliver rt fuel) s = Returned () s' /\
    "visible" ∈ text_states (host s') /\
    background s' =
      after_shows [0.25%float; 0.05%float] (if twice then 2 else 1) (background s) /\
    header s' = after_shows [0.05%float] (if twice then 2 else 1) (header s) /\
    show_calls_in (issued (onShow rt (deliver rt fuel) s) s) =
      (if twice then show_pair else []) ++ show_pair.
Proof.
  intros twice. subst twice. rewrite onShow_run.
  eexists. split; [reflexivity|].
  cbn [host text_states background header]. split; [set_solver|].
  split; [done|]. split; [done|].
  erewrite issued_app by reflexivity.
  rewrite !show_calls_in_app, show_calls_in_revealing.
  cbn [show_calls_in flat_map app].
  destruct (bool_decide _); cbn [andb]; [|done].
  rewrite show_calls_in_answer. by destruct (ga_returns rt).
Qed.

(** The [hide] calls of a run of [onHide]: the pair, once for each run
    of [onHide] it amounts to. *)
Lemma onHide_issues (fuel : nat) (s : card M) :
  exists s',
    onHide (deliver rt (S fuel)) s = Returned () s' /\
    hide_calls_in (issued (onHide (deliver rt (S fuel)) s) s) =
      concat (replicate (onHide_runs (host s)) hide_pair).
Proof.
  rewrite onHide_run. eexists. split; [reflexivity|].
  erewrite issued_app by reflexivity.
  unfold onHide_runs, held.
  destruct (bool_decide ("visible" ∈ el_states (host s))),
           (bool_decide ("visible" ∈ text_states (host s)));
    rewrite ?hide_calls_in_app, ?hide_calls_in_cons,
      ?hide_calls_in_title_dismissal, ?hide_calls_in_hiding; done.
Qed.

(** C2, as the code has it. Every run of [onShow] makes these calls, in
    this order: (a) it adds 'modal' to the scene, (b) adds 'visible' to the
    title text, (c) shows the background with (0.25, 0.05) and the header
    with (0.05), (d) reads the platform's z offset, puts the position
    dummy there, reads the dummy's world position once and sets the
    element's position to it, and (e) updates the look-at-target component
    before it returns. When the title text did not hold 'visible', step
    (b) raises 'stateadded', which bubbles to the listener of the element:
    its analytics call and, when that returns, a whole run of [onShow]
    happen inside step (b). Steps (c) to (e) are then done twice for the
    one call, on the meshes the inner run left, and the world position is
    read twice. *)
Theorem onShow_effects_in_order (fuel : nat) (s : card M) :
  let p := host s in
  let fresh := bool_decide ("visible" ∉ text_states p) in
  let twice := fresh && ga_returns rt in
  let bg1 := mesh_show [0.25%float; 0.05%float] (background s) in
  let hd1 := mesh_show [0.05%float] (header s) in
  let anchor := (0%float, 0%float, getCardZOffset rt) in
  let sample := getWorldPosition rt anchor in
  let steps_c_to_e := fun bg hd : M =>
    [MeshShow Background [0.25%float; 0.05%float]] ++
    raised Background (mesh_show [0.25%float; 0.05%float] bg).2 ++
    [MeshShow Header [0.05%float]] ++
    raised Header (mesh_show [0.05%float] hd).2 ++
    [GetCardZOffset;
     SetAttribute positionDummy "position" (xyz anchor);
     GetWorldPosition positionDummy;
     SetAttribute el "position" (xyz sample);
     LookAtTargetUpdate] in
  exists s',
    onShow rt (deliver rt fuel) s = Returned () s' /\
    calls (host s') =
      calls p ++
      [AddState sceneEl "modal"; AddState headerText "visible"] ++
      (if fresh
       then match ga rt with
            | GaReturns =>
                [Ga opened; AddState sceneEl "modal"; AddState headerText "visible"] ++
                steps_c_to_e (background s) (header s)
            | GaMissing => [UncaughtError]
            | GaThrows => [Ga opened; UncaughtError]
            end
       else []) ++
      steps_c_to_e (if twice then bg1.1 else background s)
                   (if twice then hd1.1 else header s) /\
    "modal" ∈ scene_states (host s') /\
    "visible" ∈ text_states (host s') /\
    el_states (host s') = el_states p /\
    background s' =
      (if twice then (mesh_show [0.25%float; 0.05%float] bg1.1).1 else bg1.1) /\
    header s' = (if twice then (mesh_show [0.05%float] hd1.1).1 else hd1.1) /\
    dummy_position (host s') = anchor /\
    el_position (host s') = sample /\
    count_calls is_sample (issued (onShow rt (deliver rt fuel) s) s) =
      (if twice then 2 else 1).
Proof.
  intros p fresh twice bg1 hd1 anchor sample steps.
  subst p fresh twice bg1 hd1 anchor sample steps. rewrite onShow_run.
  eexists. split; [reflexivity|].
  cbn [host calls scene_states text_states el_states background header
       dummy_position el_position].
  split.
  { f_equal. f_equal. unfold reveal_answer, reveal, revealing, ga_returns.
    destruct (bool_decide _), (ga rt); cbn [andb after_shows Nat.iter]; done. }
  split; [set_solver|]. split; [set_solver|]. split; [done|].
  split; [by destruct (_ && _)|]. split; [by destruct (_ && _)|].
  split; [done|]. split; [done|].
  erewrite issued_app by reflexivity.
  rewrite !count_calls_app, count_samples_revealing.
  cbn [count_calls List.filter is_sample length Nat.add].
  destruct (bool_decide _); cbn [andb]; [|done].
  rewrite count_samples_answer. by destruct (ga_returns rt).
Qed.

(** C3. Every run of [onHide] removes 'modal' from the scene, 'visible'
    from the element and 'visible' from the title text, and calls
    [hide()] on the background, with no argument, before
    [hide(0.05, 0.25)] on the header. A removal that finds its state
    present raises 'stateremoved', which reaches the state-removed
    listener of the element, the title text's by bubbling: [onHide] runs
    again inside the running one, once for the element's state and once
    for the title text's, and each run makes the same calls in the same
    order. *)
Theorem onHide_effects (fuel : nat) (s : card M) :
  let p := host s in
  let el_held := bool_decide ("visible" ∈ el_states p) in
  let text_held := bool_decide ("visible" ∈ text_states p) in
  let bg := fun n => after_hides [] n (background s) in
  let hd := fun n => after_hides [0.05%float; 0.25%float] n (header s) in
  let removals :=
    [RemoveState sceneEl "modal"; RemoveState el "visible";
     RemoveState headerText "visible"] in
  let hides := fun n =>
    [MeshHide Background []] ++
    raised Background (mesh_hide [] (bg n)).2 ++
    [MeshHide Header [0.05%float; 0.25%float]] ++
    raised Header (mesh_hide [0.05%float; 0.25%float] (hd n)).2 in
  let for_title :=
    removals ++
    (if text_held then removals ++ hides 0 ++ hides 1 else hides 0) in
  exists s',
    onHide (deliver rt (S fuel)) s = Returned () s' /\
    calls (host s') =
      calls p ++
      (if el_held
       then [RemoveState sceneEl "modal"; RemoveState el "visible"] ++
            for_title ++
            [RemoveState headerText "visible"] ++
            hides (if text_held then 2 else 1)
       else for_title) /\
    ("modal" ∉ scene_states (host s')) /\
    ("visible" ∉ el_states (host s')) /\
    ("visible" ∉ text_states (host s')) /\
    background s' = bg (onHide_runs p) /\
    header s' = hd (onHide_runs p) /\
    hide_calls_in (issued (onHide (deliver rt (S fuel)) s) s) =
      concat (replicate (onHide_runs p) hide_pair).
Proof.
  intros p el_held text_held bg hd removals hides for_title.
  destruct (onHide_issues fuel s) as (s0 & _ & Hissued). rewrite Hissued.
  subst p el_held text_held bg hd removals hides for_title. rewrite onHide_run.
  eexists. split; [reflexivity|].
  cbn [host calls scene_states el_states text_states background header].
  split.
  { unfold title_dismissal, dismissal, hiding.
    destruct (bool_decide ("visible" ∈ el_states (host s))),
             (bool_decide ("visible" ∈ text_states (host s)));
      cbn [after_hides Nat.iter]; by rewrite <- ?app_assoc. }
  split; [set_solver|]. split; [set_solver|]. split; [set_solver|].
  unfold onHide_runs, held.
  by destruct (bool_decide ("visible" ∈ el_states (host s))),
              (bool_decide ("visible" ∈ text_states (host s))).
Qed.

(** C9, as the code has it. A click on the hitbox runs the click
    listener: the analytics call and, when that returns, [onHide], with no
    look at whether the card is shown; when [ga] is not defined or throws,
    [onHide] does not run. [onHide] removes 'visible' from the element and
    from the title text, and each removal that finds its state present
    runs the state-removed listener of the element, so [onHide] again,
    inside the running one. One click on a card whose element and title
    text both hold 'visible' makes every call of [onHide] three times,
    not twice. *)
Theorem click_runs_onHide_for_each_state_held (fuel : nat) (s : card M) :
  let p := host s in
  let el_held := bool_decide ("visible" ∈ el_states p) in
  let text_held := bool_decide ("visible" ∈ text_states p) in
  let one := [(sceneEl, "modal"); (el, "visible"); (headerText, "visible")] in
  exists s' delta,
    react rt (S (S fuel)) RaycasterCursorUp s = Returned () s' /\
    calls (host s') = calls p ++ delta /\
    match ga rt with
    | GaReturns =>
        onHide (deliver rt (S fuel)) (touch (record_calls [Ga dismissed]) s) =
          Returned () s' /\
        ga_calls_in delta = [dismissed] /\
        hide_calls_in delta = concat (replicate (onHide_runs p) hide_pair) /\
        removals_in delta =
          (if el_held then [(sceneEl, "modal"); (el, "visible")] else []) ++
          one ++ (if text_held then one else []) ++
          (if el_held then [(headerText, "visible")] else []) /\
        length (removals_in delta) = 3 * onHide_runs p /\
        background s' = after_hides [] (onHide_runs p) (background s) /\
        header s' =
          after_hides [0.05%float; 0.25%float] (onHide_runs p) (header s)
    | GaMissing => s' = touch (record_calls [UncaughtError]) s
    | GaThrows => s' = touch (record_calls [Ga dismissed; UncaughtError]) s
    end.
Proof.
  intros p el_held text_held one. subst p el_held text_held one.
  cbn [react]. rewrite deliver_cursor_up. cbn [below].
  destruct s as [bg hd [els scs txs vis pos dpos tv cs]].
  destruct (ga rt).
  - rewrite onHide_run. eexists _, _. split; [reflexivity|]. arrange.
    split; [reflexivity|]. split; [reflexivity|].
    unfold onHide_runs, held. cbn [el_states text_states].
    destruct (bool_decide ("visible" ∈ els)), (bool_decide ("visible" ∈ txs));
      rewrite ?ga_calls_in_cons, ?hide_calls_in_cons, ?removals_in_cons,
        ?ga_calls_in_app, ?hide_calls_in_app, ?removals_in_app,
        ?hide_calls_in_title_dismissal, ?removals_in_title_dismissal,
        ?hide_calls_in_hiding, ?removals_in_hiding;
      unfold title_dismissal, dismissal, hiding; read_log;
      by repeat split.
  - eexists _, _. split; [reflexivity|]. by settle.
  - eexists _, _. split; [reflexivity|]. by settle.
Qed.

(** *** Which arguments the meshes are shown and hidden with *)

Lemma args_for_shows (fuel : nat) (s : card M) :
  let shows := show_calls_in (issued (onShow rt (deliver rt fuel) s) s) in
  args_for Background shows = Some [0.25%float; 0.05%float] /\
  args_for Header shows = Some [0.05%float].
Proof.
  intros shows. subst shows.
  destruct (onShow_issues fuel s) as (s1 & _ & _ & _ & _ & ->).
  by destruct (_ && _).
Qed.

Lemma args_for_hides (fuel : nat) (s : card M) :
  let hides := hide_calls_in (issued (onHide (deliver rt (S fuel)) s) s) in
  args_for Background hides = Some [] /\
  args_for Header hides = Some [0.05%float; 0.25%float].
Proof.
  intros hides. subst hides.
  destruct (onHide_issues fuel s) as (s1 & _ & ->).
  unfold onHide_runs. by cbn.
Qed.

(** C5, as the code has it. [onShow] and [onHide] read nothing of the
    meshes and carry no guard: the [show] and [hide] calls they make are
    the same whatever the meshes are doing. Every [onShow] calls
    [background.show(0.25, 0.05)] and [header.show(0.05)]; a second
    [onShow] right after makes the two calls again, on the meshes the
    first left. Every [onHide] calls [background.hide()] and
    [header.hide(0.05, 0.25)]; a second [onHide] right after, on the
    card that has just been dismissed, makes the two calls again. *)
Theorem handlers_carry_no_guard (fuel : nat) (s : card M) :
  (forall bg hd : M,
     show_calls_in
       (issued (onShow rt (deliver rt fuel) (Card bg hd (host s)))
          (Card bg hd (host s))) =
     show_calls_in (issued (onShow rt (deliver rt fuel) s) s) /\
     hide_calls_in
       (issued (onHide (deliver rt (S fuel)) (Card bg hd (host s)))
          (Card bg hd (host s))) =
     hide_calls_in (issued (onHide (deliver rt (S fuel)) s) s))
  /\
  (exists s1 s2,
     onShow rt (deliver rt fuel) s = Returned () s1 /\
     onShow rt (deliver rt fuel) s1 = Returned () s2 /\
     show_calls_in (issued (onShow rt (deliver rt fuel) s) s) =
       (if bool_decide ("visible" ∉ text_states (host s)) && ga_returns rt
        then [(Background, [0.25%float; 0.05%float]); (Header, [0.05%float])]
        else []) ++
       [(Background, [0.25%float; 0.05%float]); (Header, [0.05%float])] /\
     show_calls_in (issued (onShow rt (deliver rt fuel) s1) s1) =
       [(Background, [0.25%float; 0.05%float]); (Header, [0.05%float])] /\
     background s2 = (mesh_show [0.25%float; 0.05%float] (background s1)).1 /\
     header s2 = (mesh_show [0.05%float] (header s1)).1)
  /\
  (exists s1 s2,
     onHide (deliver rt (S fuel)) s = Returned () s1 /\
     onHide (deliver rt (S fuel)) s1 = Returned () s2 /\
     hide_calls_in (issued (onHide (deliver rt (S fuel)) s) s) =
       concat (replicate (onHide_runs (host s))
                 [(Background, []); (Header, [0.05%float; 0.25%float])]) /\
     hide_calls_in (issued (onHide (deliver rt (S fuel)) s1) s1) =
       [(Background, []); (Header, [0.05%float; 0.25%float])] /\
     background s2 = (mesh_hide [] (background s1)).1 /\
     header s2 = (mesh_hide [0.05%float; 0.25%float] (header s1)).1).
Proof.
  split; [|split].
  - intros bg hd.
    destruct (onShow_issues fuel s) as (s1 & _ & _ & _ & _ & ->).
    destruct (onShow_issues fuel (Card bg hd (host s))) as (s2 & _ & _ & _ & _ & ->).
    destruct (onHide_issues fuel s) as (s3 & _ & ->).
    by destruct (onHide_issues fuel (Card bg hd (host s))) as (s4 & _ & ->).
  - destruct (onShow_issues fuel s) as (s1 & E1 & V1 & _ & _ & I1).
    destruct (onShow_issues fuel s1) as (s2 & E2 & _ & B2 & H2 & I2).
    rewrite bool_decide_eq_false_2 in B2, H2, I2 by (intros Hn; by apply Hn).
    by exists s1, s2.
  - destruct (onHide_issues fuel s) as (s1 & E1 & I1).
    pose proof (onHide_run fuel s) as Run1. cbv zeta in Run1.
    rewrite E1 in Run1. injection Run1 as Run1.
    destruct (onHide_issues fuel s1) as (s2 & E2 & I2).
    pose proof (onHide_run fuel s1) as Run2. cbv zeta in Run2.
    rewrite E2 in Run2. injection Run2 as Run2.
    assert (He : bool_decide ("visible" ∈ el_states (host s1)) = false).
    { apply bool_decide_eq_false_2. rewrite Run1. cbn. set_solver. }
    assert (Ht : bool_decide ("visible" ∈ text_states (host s1)) = false).
    { apply bool_decide_eq_false_2. rewrite Run1. cbn. set_solver. }
    unfold onHide_runs, held in I2. rewrite He, Ht in I2, Run2.
    exists s1, s2. split; [done|]. split; [done|]. split; [done|].
    split; [done|]. by rewrite Run2.
Qed.

(** C6, as the code has it. The reveal delays the background (0.25
    against the header's 0.05) and the dismissal delays the header (0.05
    against no delay for the background), so the layer that waits is the
    other one. The header is hidden with the background's show arguments
    in reverse order, (0.05, 0.25) for (0.25, 0.05), and the background is
    hidden with no argument at all. *)
Theorem stagger_delays_the_other_layer (fuel : nat) (s : card M) :
  let shows := show_calls_in (issued (onShow rt (deliver rt fuel) s) s) in
  let hides := hide_calls_in (issued (onHide (deliver rt (S fuel)) s) s) in
  exists background_show header_show background_hide header_hide,
    args_for Background shows = Some background_show /\
    args_for Header shows = Some header_show /\
    args_for Background hides = Some background_hide /\
    args_for Header hides = Some header_hide /\
    background_show = [0.25%float; 0.05%float] /\
    header_show = [0.05%float] /\
    background_hide = [] /\
    header_hide = rev background_show /\
    (delay_of header_show <? delay_of background_show)%float = true /\
    (delay_of background_hide <? delay_of header_hide)%float = true.
Proof.
  intros shows hides. subst shows hides.
  destruct (args_for_shows fuel s) as [-> ->].
  destruct (args_for_hides fuel s) as [-> ->].
  by eexists _, _, _, _.
Qed.

(** C7, as the code has it. On reveal the header is shown with a delay
    of 0.05, which is more than zero, and the background with the longer
    delay 0.25 (and 0.05 as its second argument). *)
Theorem header_show_is_delayed (fuel : nat) (s : card M) :
  let shows := show_calls_in (issued (onShow rt (deliver rt fuel) s) s) in
  args_for Header shows = Some [0.05%float] /\
  args_for Background shows = Some [0.25%float; 0.05%float] /\
  (0 <? delay_of [0.05%float])%float = true /\
  (delay_of [0.05%float] <? delay_of [0.25%float; 0.05%float])%float = true.
Proof.
  intros shows. subst shows.
  by destruct (args_for_shows fuel s) as [-> ->].
Qed.

(** C10. [init] sets the title text entity's value to the configured
    title in upper case: the value of its 'info-card-text' attribute is
    [title.toUpperCase()], for every title. *)
Theorem init_title_in_upper_case (d : data) (p : page) :
  text_value (host (init rt d p)) = toUpperCase rt (title d) /\
  calls (host (init rt d p)) = calls p ++ init_calls rt d /\
  exists before after,
    init_calls rt d =
      before ++
      SetAttribute headerText "info-card-text"
        (VObj [("color", TextColorHex rt);
               ("font", VStr "fonts/NowAlt-Bold.json");
               ("letterSpacing", VNum 6%float);
               ("value", VStr (toUpperCase rt (title d)));
               ("width", VNum (width d));
               ("wrapCount", VNum 64%float)]) :: after /\
    forall c, In c (before ++ after) ->
      match c with SetAttribute headerText _ _ => False | _ => True end.
Proof.
  split; [done|]. split; [done|].
  exists (take 12 (init_calls rt d)), (drop 13 (init_calls rt d)).
  split; [reflexivity|].
  intros c Hc. cbn in Hc. repeat destruct Hc as [<- | Hc]; try done.
Qed.

End Methods.

(** ** Every run of the component, under a monitor *)

Section Monitored.

Context {M : Type} `{!CardMesh M}.
Variable rt : runtime.
Context {Q : Type}.
Variable step : Q -> call -> option Q.
Variable I : Q -> card M -> Prop.

Abbreviation prog := (js (card M)).

(** What the methods must do for the monitor; the rest follows. *)
Hypothesis step_quiet :
  forall q s c, I q s -> quiet c = true -> step q c = Some q.
Hypothesis I_host : forall q f s, I q s -> I q (touch f s).
Hypothesis tick_settles : forall t dt, settles step I (tick t dt).
Hypothesis onShow_settles :
  forall fuel, settles step I (onShow rt (deliver rt fuel)).
Hypothesis onHide_settles :
  forall fuel, settles step I (onHide (deliver rt (S fuel))).

Lemma settles_ret : settles step I (mret () : prog unit).
Proof. intros q s Hq. exists s, [], q. by rewrite app_nil_r. Qed.

Lemma settles_bind (m k : prog unit) :
  settles step I m -> settles step I k -> settles step I (m ;; k).
Proof.
  intros Hm Hk q s Hq.
  destruct (Hm q s Hq) as (s1 & d1 & q1 & E1 & C1 & W1 & I1).
  destruct (Hk q1 s1 I1) as (s2 & d2 & q2 & E2 & C2 & W2 & I2).
  exists s2, (d1 ++ d2), q2. rewrite bind_run, E1.
  split; [done|]. split; [by rewrite C2, C1, app_assoc|].
  split; [by eapply watch_through|done].
Qed.

Lemma settles_gets {A} (f : card M -> A) (k : A -> prog unit) :
  (forall a, settles step I (k a)) -> settles step I (gets f ≫= k).
Proof. intros Hk q s Hq. rewrite bind_run, gets_run. by apply Hk. Qed.

Lemma settles_log c : quiet c = true -> settles step I (log c : prog unit).
Proof.
  intros Hc q s Hq. exists (touch (record_calls [c]) s), [c], q.
  split; [done|]. split; [by destruct s as [? ? []]|].
  split; [|by apply I_host].
  cbn [watch]. by rewrite (step_quiet q s c Hq Hc).
Qed.

Lemma settles_on_host f :
  (forall p, calls (f p) = calls p) -> settles step I (on_host f : prog unit).
Proof.
  intros Hf q s Hq. exists (touch f s), [], q. split; [done|].
  split; [|split; [done|by apply I_host]].
  destruct s as [? ? p]. cbn. by rewrite Hf, app_nil_r.
Qed.

Lemma settles_for_each {A} (f : A -> prog unit) xs :
  (forall x, settles step I (f x)) -> settles step I (for_each f xs).
Proof.
  intros Hf. induction xs as [|x xs IH]; [apply settles_ret|].
  cbn [for_each]. by apply settles_bind.
Qed.

Lemma ends_settles (m : prog unit) : settles step I m -> ends step I m.
Proof.
  intros Hm q s Hq. destruct (Hm q s Hq) as (s' & d & q' & E & C & W & I').
  exists s', d, q'. split; [left; by exists ()|done].
Qed.

Lemma ends_throw {A} : ends step I (throw : prog A).
Proof.
  intros q s Hq. exists s, [], q. split; [by right|]. by rewrite app_nil_r.
Qed.

Lemma ends_bind {A B} (m : prog A) (k : A -> prog B) :
  ends step I m -> (forall a, ends step I (k a)) -> ends step I (m ≫= k).
Proof.
  intros Hm Hk q s Hq. rewrite bind_run.
  destruct (Hm q s Hq) as (s1 & d1 & q1 & [[a E1] | E1] & C1 & W1 & I1);
    rewrite E1.
  - destruct (Hk a q1 s1 I1) as (s2 & d2 & q2 & E2 & C2 & W2 & I2).
    exists s2, (d1 ++ d2), q2. split; [done|].
    split; [by rewrite C2, C1, app_assoc|].
    split; [by eapply watch_through|done].
  - exists s1, d1, q1. split; [by right|done].
Qed.

Lemma ends_call_ga args : ends step I (call_ga rt args : prog unit).
Proof.
  intros q s Hq. rewrite call_ga_run.
  assert (W : watch step q [Ga args] = Some q)
    by (cbn [watch]; by rewrite (step_quiet q s (Ga args) Hq)).
  destruct (ga rt).
  - exists (touch (record_calls [Ga args]) s), [Ga args], q.
    split; [left; by exists ()|]. split; [by destruct s as [? ? []]|].
    split; [done|by apply I_host].
  - exists s, [], q. split; [by right|]. by rewrite app_nil_r.
  - exists (touch (record_calls [Ga args]) s), [Ga args], q.
    split; [by right|]. split; [by destruct s as [? ? []]|].
    split; [done|by apply I_host].
Qed.

Lemma ends_detail_state ev : ends step I (detail_state ev : prog value).
Proof.
  unfold detail_state. destruct (get_field "state" (detail ev)).
  - intros q s Hq. exists s, [], q.
    split; [left; by eexists|]. by rewrite app_nil_r.
  - apply ends_throw.
Qed.

(** A listener that throws is reported: delivery goes on. *)
Lemma settles_reported (m : prog unit) :
  ends step I m -> settles step I (reported m).
Proof.
  intros Hm q s Hq. unfold reported.
  destruct (Hm q s Hq) as (s1 & d1 & q1 & [[[] E1] | E1] & C1 & W1 & I1);
    rewrite E1.
  - by exists s1, d1, q1.
  - exists (touch (record_calls [UncaughtError]) s1), (d1 ++ [UncaughtError]), q1.
    split; [done|]. split; [|split; [|by apply I_host]].
    + destruct s1 as [? ? []]. cbn in *. by rewrite C1, app_assoc.
    + eapply watch_through; [done|]. cbn [watch].
      by rewrite (step_quiet q1 s1 UncaughtError I1).
Qed.

Lemma settles_listener fuel l ev :
  settles step I (reported (run_listener rt (deliver rt (S fuel)) l ev)).
Proof.
  apply settles_reported. destruct l; cbn [run_listener].
  - apply ends_bind; [apply ends_detail_state|]. intros st.
    destruct (differs_from_string st "visible");
      [apply ends_settles, settles_ret|].
    apply ends_bind; [apply ends_call_ga|]. intros _.
    apply ends_settles, onShow_settles.
  - apply ends_bind; [apply ends_detail_state|]. intros st.
    destruct (differs_from_string st "visible");
      [apply ends_settles, settles_ret|].
    apply ends_settles, onHide_settles.
  - apply ends_bind; [apply ends_call_ga|]. intros _.
    apply ends_settles, onHide_settles.
Qed.

Lemma settles_deliver fuel e ev : settles step I (deliver rt (S (S fuel)) e ev).
Proof.
  rewrite deliver_unfold. cbn [below]. apply settles_for_each. intros l.
  apply settles_listener.
Qed.

Lemma settles_react fuel x : settles step I (react rt (S (S fuel)) x).
Proof.
  destruct x as [st | st | | t dt]; cbn [react].
  - unfold addState. apply settles_bind; [by apply settles_log|].
    apply settles_gets. intros [].
    + apply settles_ret.
    + apply settles_bind; [|apply settles_deliver].
      apply settles_on_host. intros []; reflexivity.
  - unfold removeState. apply settles_bind; [by apply settles_log|].
    apply settles_gets. intros [].
    + apply settles_bind; [|apply settles_deliver].
      apply settles_on_host. intros []; reflexivity.
    + apply settles_ret.
  - apply settles_deliver.
  - apply tick_settles.
Qed.

Lemma settles_run fuel xs : settles step I (run rt (S (S fuel)) xs).
Proof. apply settles_for_each. intros x. apply settles_react. Qed.

End Monitored.

(** *** The relay monitor, for every mesh *)

Section Relay.

Context {M : Type} `{!CardMesh M}.
Variable rt : runtime.

Lemma relay_raised_background (q : M * nat) names :
  watch relay_step q (raised Background names) = Some q.
Proof. induction names as [|n names IH]; [done|]. apply IH. Qed.

(** Each 'hide-complete' among the events the header raised is answered
    by the element's event, one for one. *)
Lemma relay_raised_header (hd : M) p names :
  watch relay_step (hd, hide_completes names + p) (raised Header names) =
  Some (hd, p).
Proof.
  induction names as [|n names IH]; [done|].
  rewrite raised_cons, watch_app. unfold relay_calls, hide_completes.
  cbn [List.filter]. destruct (String.eqb n "hide-complete") eqn:E.
  - cbn [length Nat.add watch relay_step snd fst].
    change (is_relay_emit (Emit el "hide-complete" VNull false)) with true.
    cbv iota. apply IH.
  - cbn [watch relay_step]. apply IH.
Qed.

Lemma relay_header_call c (hd : M) r :
  header_call c hd = Some r ->
  watch relay_step (hd, 0) (c :: raised Header r.2) = Some (r.1, 0).
Proof.
  intros Hc. cbn [watch].
  assert (E : relay_step (hd, 0) c = Some (r.1, hide_completes r.2)).
  { destruct c; try done; cbn [relay_step snd fst]; by rewrite Hc. }
  rewrite E. rewrite <- (Nat.add_0_r (hide_completes r.2)).
  apply relay_raised_header.
Qed.

Lemma relay_other c (hd : M) :
  is_emit c = false -> header_call c hd = None ->
  relay_step (hd, 0) c = Some (hd, 0).
Proof. intros He Hc. destruct c; try done; cbn [relay_step snd fst]; by rewrite Hc. Qed.

Lemma relay_revealing (bg hd : M) :
  watch relay_step (hd, 0) (revealing rt bg hd) =
  Some ((mesh_show [0.05%float] hd).1, 0).
Proof.
  unfold revealing.
  rewrite watch_app. cbn [watch]. rewrite relay_other by done.
  rewrite watch_app, relay_raised_background.
  change ([MeshShow Header [0.05%float]] ++
          raised Header (mesh_show [0.05%float] hd).2 ++ ?rest)
    with ((MeshShow Header [0.05%float] ::
           raised Header (mesh_show [0.05%float] hd).2) ++ rest).
  rewrite watch_app, (relay_header_call (MeshShow Header [0.05%float]) hd _ eq_refl).
  cbn [watch]. by rewrite !relay_other by done.
Qed.

Lemma relay_reveal (bg hd : M) :
  watch relay_step (hd, 0) (reveal rt bg hd) = Some ((mesh_show [0.05%float] hd).1, 0).
Proof.
  unfold reveal. rewrite watch_app. cbn [watch].
  rewrite !relay_other by done. apply relay_revealing.
Qed.

Lemma relay_answer (bg hd : M) :
  watch relay_step (hd, 0) (reveal_answer rt bg hd) =
  Some (after_shows [0.05%float] (if ga_returns rt then 1 else 0) hd, 0).
Proof.
  unfold reveal_answer, ga_returns. destruct (ga rt); [|done..].
  cbn [watch]. rewrite relay_other by done. apply relay_reveal.
Qed.

Lemma relay_hiding (bg hd : M) :
  watch relay_step (hd, 0) (hiding bg hd) =
  Some ((mesh_hide [0.05%float; 0.25%float] hd).1, 0).
Proof.
  unfold hiding.
  rewrite watch_app. cbn [watch]. rewrite relay_other by done.
  rewrite watch_app, relay_raised_background.
  apply (relay_header_call (MeshHide Header [0.05%float; 0.25%float]) hd _ eq_refl).
Qed.

Lemma relay_dismissal (bg hd : M) :
  watch relay_step (hd, 0) (dismissal bg hd) =
  Some ((mesh_hide [0.05%float; 0.25%float] hd).1, 0).
Proof.
  unfold dismissal. rewrite watch_app. cbn [watch].
  rewrite !relay_other by done. apply relay_hiding.
Qed.

Lemma relay_title_dismissal text_held (bg hd : M) :
  watch relay_step (hd, 0) (title_dismissal text_held bg hd) =
  Some (after_hides [0.05%float; 0.25%float] (if text_held then 2 else 1) hd, 0).
Proof.
  unfold title_dismissal. rewrite watch_app. cbn [watch].
  rewrite !relay_other by done. destruct text_held.
  - rewrite watch_app, relay_dismissal. apply relay_hiding.
  - apply relay_hiding.
Qed.

Lemma relay_settles (m : js (card M) unit) :
  (forall s, exists s' delta,
     m s = Returned () s' /\
     calls (host s') = calls (host s) ++ delta /\
     watch relay_step (header s, 0) delta = Some (header s', 0)) ->
  settles relay_step at_header m.
Proof.
  intros Hm q s ->. destruct (Hm s) as (s' & delta & E & C & R).
  by exists s', delta, (header s', 0).
Qed.

Lemma run_is_relayed fuel xs :
  settles relay_step at_header (run rt (S (S fuel)) xs).
Proof.
  apply settles_run.
  - intros q s c ->. by destruct c.
  - by intros q f s ->.
  - intros t dt. apply relay_settles. intros s.
    eexists _, _. split; [apply tick_run|]. split; [reflexivity|].
    cbn [header]. rewrite watch_app. cbn [watch]. rewrite relay_other by done.
    rewrite watch_app, relay_raised_background.
    change ([MeshTick Header dt] ++ raised Header (mesh_tick dt (header s)).2 ++ ?rest)
      with ((MeshTick Header dt :: raised Header (mesh_tick dt (header s)).2) ++ rest).
    rewrite watch_app, (relay_header_call (MeshTick Header dt) (header s) _ eq_refl).
    cbn [watch]. by rewrite relay_other by done.
  - intros fuel'. apply relay_settles. intros s.
    eexists _, _. split; [apply onShow_run|]. split; [reflexivity|].
    cbn [header]. rewrite watch_app. cbn [watch]. rewrite !relay_other by done.
    rewrite watch_app. unfold ga_returns.
    destruct (bool_decide _); cbn [andb].
    + rewrite relay_answer. unfold ga_returns.
      destruct (ga rt); cbn [after_shows Nat.iter]; apply relay_revealing.
    + cbn [watch after_shows Nat.iter]. apply relay_revealing.
  - intros fuel'. apply relay_settles. intros s.
    eexists _, _. split; [apply onHide_run|]. split; [reflexivity|].
    cbn [header host].
    destruct (bool_decide ("visible" ∈ el_states (host s))).
    + rewrite watch_app. cbn [watch]. rewrite !relay_other by done.
      rewrite watch_app, relay_title_dismissal.
      rewrite watch_app. cbn [watch]. rewrite !relay_other by done.
      rewrite relay_hiding.
      by destruct (bool_decide ("visible" ∈ text_states (host s))).
    + apply relay_title_dismissal.
Qed.

(** In a log the relay monitor accepts, the events emitted are the
    'hide-complete' events the header mesh raised, up to those waiting at
    either end, and each is [el.emit('hide-complete', null, false)]. *)
Lemma relay_counts (hd hd' : M) p p' cs :
  watch relay_step (hd, p) cs = Some (hd', p') ->
  (count_calls is_emit cs + p' = completed_hides hd cs + p)%nat /\
  List.filter is_emit cs =
    replicate (count_calls is_emit cs) (Emit el "hide-complete" VNull false).
Proof.
  revert hd p. induction cs as [|c cs IH]; intros hd p H.
  - injection H as <- <-. by cbn.
  - cbn [watch] in H. destruct (relay_step (hd, p) c) as [[h1 p1]|] eqn:Hc; [|done].
    apply IH in H as [H1 H2]. rewrite count_calls_cons. cbn [List.filter].
    destruct (is_emit c) eqn:He.
    + destruct c; try done. cbn [relay_step snd fst] in Hc.
      destruct p as [|n]; [done|].
      destruct (is_relay_emit (Emit e type0 detail0 bubbles)) eqn:Hr; [|done].
      injection Hc as <- <-. cbn [completed_hides header_call].
      split; [lia|]. cbn [replicate Nat.add]. rewrite <- H2. f_equal.
      destruct e; try done. destruct detail0; try done. destruct bubbles; try done.
      cbn in Hr. by apply String.eqb_eq in Hr as ->.
    + cbn [Nat.add]. split; [|done].
      destruct c; cbn in He; try done;
        cbn [relay_step snd fst] in Hc;
        try (injection Hc as <- <-; cbn [completed_hides header_call]; lia);
        (destruct p; [|done]); cbn [completed_hides];
        match goal with
        | |- context [header_call ?c hd] =>
            destruct (header_call c hd) as [r|]; injection Hc as <- <-; lia
        end.
Qed.

(** What the component emits on a frame. *)
Lemma emitted_by_raised_background names :
  List.filter is_emit (raised Background names) = [].
Proof. induction names as [|n names IH]; [done|]. apply IH. Qed.

Lemma emitted_by_raised_header names :
  List.filter is_emit (raised Header names) =
  replicate (hide_completes names) (Emit el "hide-complete" VNull false).
Proof.
  induction names as [|n names IH]; [done|].
  rewrite raised_cons, List.filter_app, IH. unfold relay_calls, hide_completes.
  cbn [List.filter]. by destruct (String.eqb n "hide-complete").
Qed.

(** X13. On a frame the component emits one
    [el.emit('hide-complete', null, false)] for each 'hide-complete' the
    header raised during its [tick], after the header's [tick] and before
    the 'visible' attribute is set, and nothing for what the background
    raised or for any other event of the header. *)
Theorem header_events_are_relayed_on_a_frame (t dt : number) (s : card M) :
  let bg := mesh_tick dt (background s) in
  let hd := mesh_tick dt (header s) in
  exists s' between,
    tick t dt s = Returned () s' /\
    calls (host s') =
      calls (host s) ++
      [MeshTick Background dt] ++ raised Background bg.2 ++
      [MeshTick Header dt] ++ between ++
      [SetAttribute el "visible" (VBool (0 <? mesh_animIn hd.1)%float)] /\
    List.filter is_emit between =
      replicate (hide_completes hd.2) (Emit el "hide-complete" VNull false) /\
    List.filter is_emit (issued (tick t dt s) s) = List.filter is_emit between /\
    Forall (fun c => is_emit c = true \/ exists name, c = Raised Header name) between.
Proof.
  intros bg hd. subst bg hd. rewrite tick_run.
  eexists _, (raised Header (mesh_tick dt (header s)).2).
  split; [reflexivity|]. split; [reflexivity|].
  split; [apply emitted_by_raised_header|]. split.
  - erewrite issued_app by reflexivity.
    rewrite !List.filter_app, emitted_by_raised_background.
    cbn [List.filter is_emit app]. by rewrite app_nil_r.
  - induction (mesh_tick dt (header s)).2 as [|n names IH]; [done|].
    rewrite raised_cons. apply Forall_app. split; [|done].
    unfold relay_calls. apply Forall_cons. split; [right; by eexists|].
    destruct (String.eqb n "hide-complete"); [|done].
    apply Forall_cons. split; [by left|done].
Qed.

End Relay.

(** *** The reference panel: when a hide completes *)

Lemma at_most_zero_is_not_positive (x : number) :
  (x <=? 0)%float = true -> (0 <? x)%float = false.
Proof.
  rewrite FloatAxioms.leb_spec, FloatAxioms.ltb_spec.
  change (Prim2SF 0) with (S754_zero false).
  destruct (Prim2SF x) as [[]|[]| |[] ? ?]; cbn; congruence.
Qed.

Lemma zero_is_at_most_zero (x : number) :
  (x =? 0)%float = true -> (x <=? 0)%float = true.
Proof.
  rewrite FloatAxioms.eqb_spec, FloatAxioms.leb_spec.
  change (Prim2SF 0) with (S754_zero false).
  destruct (Prim2SF x) as [[]|[]| |[] ? ?]; cbn; congruence.
Qed.

(** A number from which something can be taken to reach 0 or less is a
    number (not NaN): when it is not at most 0 itself, it is above 0. *)
Lemma taken_down_from_above (x y : number) :
  (x - y <=? 0)%float = true -> (x <=? 0)%float = false -> (0 <? x)%float = true.
Proof.
  rewrite !FloatAxioms.leb_spec, FloatAxioms.ltb_spec, FloatAxioms.sub_spec.
  change (Prim2SF 0) with (S754_zero false).
  destruct (Prim2SF x) as [[]|[]| |[] ? ?]; cbn; congruence.
Qed.

(** The panel notifies its subscribers on the frame on which its hide
    completes, and at no other time. *)
Lemma advance_notifies (dt : number) (p : Panel.panel) :
  (Panel.advance dt p).2 =
  if Panel.completes dt p then ["hide-complete"] else [].
Proof.
  destruct p as [sz off a mv w sp]. unfold Panel.completes, Panel.advance.
  cbn [Panel.moving Panel.wait Panel.animIn Panel.size Panel.offset Panel.span].
  destruct mv; cbn [andb].
  - done.
  - by destruct (0 <? w)%float; [|destruct (1 <=? _)%float].
  - destruct (0 <? w)%float eqn:Hw.
    + cbn [fst snd Panel.animIn]. destruct (0 <? a)%float eqn:Ha; [|done].
      destruct (a =? 0)%float eqn:Hz; [|done].
      apply zero_is_not_positive in Hz. congruence.
    + destruct (a <=? 0)%float eqn:Hle.
      * by rewrite (at_most_zero_is_not_positive a Hle).
      * destruct (a - dt / sp <=? 0)%float eqn:Hd; cbn [fst snd Panel.animIn].
        -- by rewrite (taken_down_from_above a (dt / sp) Hd Hle).
        -- destruct (0 <? a)%float; [|done]. cbn [andb].
           destruct (a - dt / sp =? 0)%float eqn:Hz; [|done].
           apply zero_is_at_most_zero in Hz. congruence.
Qed.

Lemma completed_are_completions (hd : Panel.panel) cs :
  completed_hides hd cs = completions hd cs.
Proof.
  revert hd. induction cs as [|c cs IH]; intros hd; [done|].
  cbn [completed_hides completions].
  destruct c; cbn [header_call]; try apply IH; destruct l; try apply IH;
    rewrite IH; f_equal; cbn [mesh_show mesh_hide mesh_tick Panel.card_mesh];
    try done.
  rewrite advance_notifies. by destruct (Panel.completes dt hd).
Qed.

(** *** The timing monitor, on the reference panel *)

Section Timing.

Variable rt : runtime.

Lemma timing_raised_background ph names :
  watch timing_step ph (raised Background names) = Some ph.
Proof. induction names as [|n names IH]; [done|]. apply IH. Qed.

Lemma advance_paced ph dt hd :
  paced ph hd ->
  exists ph',
    watch timing_step ph (raised Header (Panel.advance dt hd).2) = Some ph' /\
    paced ph' (Panel.advance dt hd).1.
Proof.
  destruct hd as [sz off a mv w sp]. unfold Panel.advance.
  cbn [Panel.moving Panel.wait Panel.animIn Panel.size Panel.offset Panel.span].
  intros Hp. destruct mv.
  - exists ph. by destruct ph.
  - destruct (0 <? w)%float; [|destruct (1 <=? _)%float];
      (exists ph; split; [done|]); destruct ph; cbn in *; by intuition.
  - destruct ph; cbn in Hp.
    + done.
    + destruct (0 <? w)%float; [by exists Dismissing|].
      destruct (a <=? 0)%float; [by exists Dismissing|].
      destruct (_ <=? 0)%float; [by exists Done|by exists Dismissing].
    + destruct Hp as [-> _].
      destruct (0 <? w)%float; by exists Done.
Qed.

Lemma timing_revealing ph (bg hd : Panel.panel) :
  watch timing_step ph (revealing rt bg hd) = Some Revealed.
Proof. reflexivity. Qed.

Lemma timing_answer ph (bg hd : Panel.panel) :
  watch timing_step ph (reveal_answer rt bg hd) =
  Some (if ga_returns rt then Revealed else ph).
Proof. unfold reveal_answer, ga_returns. by destruct (ga rt). Qed.

Lemma timing_hiding ph (bg hd : Panel.panel) :
  watch timing_step ph (hiding bg hd) = Some (dismiss ph).
Proof. reflexivity. Qed.

Lemma timing_title_dismissal ph text_held (bg hd : Panel.panel) :
  watch timing_step ph (title_dismissal text_held bg hd) = Some (dismiss ph).
Proof. destruct text_held, ph; reflexivity. Qed.

(** A panel that has been told to show is not leaving; one that has been
    told to hide is not entering and is where it was. *)
Lemma paced_after_shows args n (hd : Panel.panel) :
  n <> 0 -> paced Revealed (after_shows args n hd).
Proof. destruct n as [|n]; [done|]. intros _. by cbn. Qed.

Lemma paced_after_hides ph args n (hd : Panel.panel) :
  n <> 0 -> paced ph hd -> paced (dismiss ph) (after_hides args n hd).
Proof.
  destruct n as [|n]; [done|]. intros _ Hp. destruct ph; cbn in *; try done.
  split; [|done]. destruct Hp as [Hp _].
  induction n as [|n IH]; [done|]. apply IH.
Qed.

Lemma run_is_timely fuel xs :
  settles timing_step header_paced (run rt (S (S fuel)) xs).
Proof.
  apply settles_run.
  - intros ph s c _ Hc. by destruct c.
  - done.
  - intros t dt ph s Hp. rewrite tick_run.
    destruct (advance_paced ph dt (header s) Hp) as (ph' & W & Hp').
    eexists _, _, ph'. split; [reflexivity|]. split; [reflexivity|].
    split; [|exact Hp'].
    rewrite watch_app. cbn [watch timing_step].
    rewrite watch_app, timing_raised_background.
    rewrite watch_app. cbn [watch timing_step].
    rewrite watch_app. cbn [mesh_tick Panel.card_mesh]. by rewrite W.
  - intros fuel' ph s Hp. rewrite onShow_run.
    eexists _, _, Revealed. split; [reflexivity|]. split; [reflexivity|].
    split.
    + rewrite watch_app. cbn [watch timing_step].
      rewrite watch_app.
      destruct (bool_decide _); [rewrite timing_answer|cbn [watch]];
        apply timing_revealing.
    + apply paced_after_shows. by destruct (_ && _).
  - intros fuel' ph s Hp. rewrite onHide_run.
    eexists _, _, (dismiss ph). split; [reflexivity|]. split; [reflexivity|].
    split.
    + cbn [host]. destruct (bool_decide ("visible" ∈ el_states (host s))).
      * rewrite watch_app. cbn [watch timing_step].
        rewrite watch_app, timing_title_dismissal.
        rewrite watch_app. cbn [watch timing_step].
        rewrite timing_hiding. by destruct ph.
      * apply timing_title_dismissal.
    + apply paced_after_hides; [|done].
      by destruct (bool_decide _), (bool_decide _).
Qed.

End Timing.


(** ** The theorems at work on the reference panel *)

(** On the frame on which the header's progress reaches 0 the element's
    'visible' attribute becomes false. *)
Lemma tick_hides_on_the_frame_progress_reaches_zero :
  (mesh_animIn (mesh_tick 0.5%float (header leaving_card)).1 =? 0)%float = true /\
  el_visible (host leaving_card) = true /\
  el_visible (host hidden_card) = false.
Proof.
  destruct (tick_sets_visible_from_header 1.5%float 0.5%float leaving_card)
    as [E Z].
  split; [by vm_compute|]. split; [by vm_compute|].
  unfold hidden_card. rewrite E. cbn [outcome_state host el_visible].
  apply Z. by vm_compute.
Defined.

(** One reveal and one click, with the frames in between: the header
    completes one hide, on the last frame, and one event is emitted, on
    that frame. *)
Example one_hide_complete_for_one_dismissal :
  count_calls is_emit (calls (host leaving_card)) = 0 /\
  Panel.completes 0.5%float (header leaving_card) = true /\
  issued (tick 1.5%float 0.5%float leaving_card) leaving_card =
    [MeshTick Background 0.5%float;
     MeshTick Header 0.5%float;
     Raised Header "hide-complete";
     Emit el "hide-complete" VNull false;
     SetAttribute el "visible" (VBool false)] /\
  count_calls is_emit
    (issued
       (run desktop 2
          [ElAddState "visible"; Frame 0%float 0.5%float; Frame 0.5%float 0.5%float;
           RaycasterCursorUp; Frame 1%float 0.5%float; Frame 1.5%float 0.5%float;
           Frame 2%float 0.5%float]
          fresh_card)
       fresh_card) = 1.
Proof. repeat split; by vm_compute. Qed.

(** The monitors do reject: an event emitted when the header raised
    none, a 'hide-complete' of the header left without its event, an event
    during a reveal, and a second one before the header is shown again. *)
Example monitors_reject :
  watch relay_step (header shown_card, 0) [Emit el "hide-complete" VNull false]
    = None /\
  watch relay_step (header leaving_card, 0)
    [MeshTick Header 0.5%float; SetAttribute el "visible" (VBool false)] = None /\
  ~ timely [MeshShow Header [0.05%float]; Emit el "hide-complete" VNull false] /\
  ~ timely [MeshShow Header [0.05%float]; MeshHide Header [];
            Emit el "hide-complete" VNull false; MeshHide Header [];
            Emit el "hide-complete" VNull false].
Proof.
  split; [by vm_compute|]. split; [by vm_compute|].
  unfold timely. cbn. split; by intros [ph H].
Qed.

(** A second click on the hidden card: [onHide] runs again, and the
    header, at rest at 0, completes no second hide. *)
Example second_click_emits_nothing :
  count_calls is_emit
    (issued
       (run desktop 2
          [RaycasterCursorUp; Frame 2%float 0.5%float; Frame 2.5%float 0.5%float]
          hidden_card)
       hidden_card) = 0 /\
  hide_calls_in
    (issued
       (run desktop 2
          [RaycasterCursorUp; Frame 2%float 0.5%float; Frame 2.5%float 0.5%float]
          hidden_card)
       hidden_card) = [(Background, []); (Header, [0.05%float; 0.25%float])].
Proof. split; by vm_compute. Qed.

(** The title shown is not the configured one as it stands. *)
Example title_is_upper_cased :
  title orientation = "Orientation" /\
  text_value (host fresh_card) = "ORIENTATION".
Proof. split; by vm_compute. Qed.

(** ** Where the code does otherwise *)

(** [onShow] on the card as [init] leaves it: adding 'visible' to the
    title text runs the state-added listener of the element, so the
    analytics event is sent from inside [onShow] and a second [onShow]
    runs inside the first. The meshes are shown twice and the world
    position is read twice, not once. *)
Lemma onShow_on_fresh_card_runs_twice :
  ("visible" ∉ text_states (host fresh_card)) /\
  count_calls is_sample
    (issued (onShow desktop (deliver desktop 2) fresh_card) fresh_card) = 2 /\
  count_calls is_sample
    (issued (onShow desktop (deliver desktop 2) fresh_card) fresh_card) <> 1 /\
  show_calls_in
    (issued (onShow desktop (deliver desktop 2) fresh_card) fresh_card) =
    [(Background, [0.25%float; 0.05%float]); (Header, [0.05%float]);
     (Background, [0.25%float; 0.05%float]); (Header, [0.05%float])] /\
  ga_calls_in
    (issued (onShow desktop (deliver desktop 2) fresh_card) fresh_card) =
    [opened] /\
  take 5 (issued (onShow desktop (deliver desktop 2) fresh_card) fresh_card) =
    [AddState sceneEl "modal"; AddState headerText "visible"; Ga opened;
     AddState sceneEl "modal"; AddState headerText "visible"].
Proof. repeat split; by vm_compute. Qed.

(** A click on the shown card, whose element and title text both hold
    'visible': the calls of [onHide] are made three times, not twice; and
    with no [ga] defined they are not made at all. *)
Lemma click_on_shown_card_hides_three_times :
  ("visible" ∈ el_states (host shown_card)) /\
  hide_calls_in (issued (react desktop 2 RaycasterCursorUp shown_card) shown_card) =
    [(Background, []); (Header, [0.05%float; 0.25%float]);
     (Background, []); (Header, [0.05%float; 0.25%float]);
     (Background, []); (Header, [0.05%float; 0.25%float])] /\
  hide_calls_in (issued (react desktop 2 RaycasterCursorUp shown_card) shown_card) <>
    [(Background, []); (Header, [0.05%float; 0.25%float]);
     (Background, []); (Header, [0.05%float; 0.25%float])] /\
  removals_in (issued (react desktop 2 RaycasterCursorUp shown_card) shown_card) =
    [(sceneEl, "modal"); (el, "visible");
     (sceneEl, "modal"); (el, "visible"); (headerText, "visible");
     (sceneEl, "modal"); (el, "visible"); (headerText, "visible");
     (headerText, "visible")] /\
  issued (react without_analytics 2 RaycasterCursorUp shown_card) shown_card =
    [UncaughtError].
Proof.
  split; [by vm_compute|]. split; [by vm_compute|].
  split; [intros H; vm_compute in H; discriminate|].
  split; by vm_compute.
Qed.

(** A reveal on a card that is already shown is not held back: the two
    staggered [show] calls are made again. A dismissal on a card that is
    hidden is not a no-op: both [hide] calls are made. *)
Lemma second_reveal_repeats_the_stagger :
  Panel.isAnimating (header shown_card) = false /\
  (0 <? mesh_animIn (header shown_card))%float = true /\
  show_calls_in (issued (onShow desktop (deliver desktop 2) shown_card) shown_card) =
    [(Background, [0.25%float; 0.05%float]); (Header, [0.05%float])] /\
  Panel.isAnimating (header hidden_card) = false /\
  (mesh_animIn (header hidden_card) =? 0)%float = true /\
  hide_calls_in (issued (onHide (deliver desktop 2) hidden_card) hidden_card) =
    [(Background, []); (Header, [0.05%float; 0.25%float])].
Proof.
  repeat split; by vm_compute.
Qed.

(** The dismissal is not the reveal with the layers exchanged: the
    background is hidden with no argument where the header was shown with
    (0.05), and the header is hidden with (0.05, 0.25) where the
    background was shown with (0.25, 0.05). Nor does the layer that
    enters last leave last: the background waits longer than the header
    on the way in, and the header waits longer on the way out. *)
Lemma stagger_is_not_mirrored :
  ~ mirrored
      (show_calls_in (issued (onShow desktop (deliver desktop 2) fresh_card) fresh_card))
      (hide_calls_in (issued (onHide (deliver desktop 2) shown_card) shown_card)) /\
  args_for Background
    (hide_calls_in (issued (onHide (deliver desktop 2) shown_card) shown_card)) <>
  args_for Header
    (show_calls_in (issued (onShow desktop (deliver desktop 2) fresh_card) fresh_card)) /\
  args_for Header
    (hide_calls_in (issued (onHide (deliver desktop 2) shown_card) shown_card)) <>
  args_for Background
    (show_calls_in (issued (onShow desktop (deliver desktop 2) fresh_card) fresh_card)) /\
  (delay_for Header
     (show_calls_in (issued (onShow desktop (deliver desktop 2) fresh_card) fresh_card))
   <? delay_for Background
     (show_calls_in (issued (onShow desktop (deliver desktop 2) fresh_card) fresh_card)))%float
    = true /\
  (delay_for Background
     (hide_calls_in (issued (onHide (deliver desktop 2) shown_card) shown_card))
   <? delay_for Header
     (hide_calls_in (issued (onHide (deliver desktop 2) shown_card) shown_card)))%float
    = true.
Proof.
  split; [intros [H _]; vm_compute in H; discriminate|].
  split; [intros H; vm_compute in H; discriminate|].
  split; [|split; by vm_compute].
  intros H.
  apply (f_equal (fun o => (delay_of (default [] o) =? 0.25)%float)) in H.
  vm_compute in H. discriminate.
Qed.

(** The header is not shown with zero delay. *)
Lemma header_show_delay_is_not_zero :
  ~ exists args,
      args_for Header
        (show_calls_in
           (issued (onShow desktop (deliver desktop 2) fresh_card) fresh_card))
        = Some args /\
      (delay_of args =? 0)%float = true.
Proof.
  intros (args & H & Z). vm_compute in H.
  injection H as <-. vm_compute in Z. discriminate.
Qed.

(** With no [ga] defined, adding 'visible' to the element shows nothing:
    the listener ends at the analytics call, the error is reported, and
    no call of [onShow] is made. *)
Lemma reveal_without_analytics_shows_nothing :
  ("visible" ∉ el_states (host fresh_card)) /\
  issued (react without_analytics 2 (ElAddState "visible") fresh_card) fresh_card =
    [AddState el "visible"; UncaughtError] /\
  show_calls_in
    (issued (react without_analytics 2 (ElAddState "visible") fresh_card) fresh_card)
    = [] /\
  "modal" ∉
    scene_states
      (host (outcome_state
               (react without_analytics 2 (ElAddState "visible") fresh_card)
               fresh_card)).
Proof.
  split; [by vm_compute|]. split; [by vm_compute|]. split; [by vm_compute|].
  by vm_compute.
Qed.

(** A card dismissed before its header has begun to appear: the progress
    of the header is 0 when it is told to hide, it has none to lose, and
    the reference panel comes to rest without completing a hide. Nothing
    is emitted. *)
Example dismissal_before_the_header_appears_emits_nothing :
  (mesh_animIn (header revealed_card) =? 0)%float = true /\
  completions (header revealed_card)
    (issued
       (run desktop 2
          [RaycasterCursorUp; Frame 0%float 0.5%float; Frame 0.5%float 0.5%float;
           Frame 1%float 0.5%float]
          revealed_card)
       revealed_card) = 0 /\
  count_calls is_emit
    (issued
       (run desktop 2
          [RaycasterCursorUp; Frame 0%float 0.5%float; Frame 0.5%float 0.5%float;
           Frame 1%float 0.5%float]
          revealed_card)
       revealed_card) = 0.
Proof. repeat split; by vm_compute. Qed.

(** * More of the component: what a stimulus does *)

Section Reactions.

Context {M : Type} `{!CardMesh M}.
Variable rt : runtime.

Abbreviation prog := (js (card M)).

(** Closes the facts about one stimulus once the card it leaves is known. *)
Ltac conclude :=
  eexists _, _; split; [reflexivity|]; split; [arrange; reflexivity|];
  arrange;
  unfold title_dismissal, dismissal, hiding, reveal_answer, reveal, revealing;
  read_log;
  repeat split; try (intros; discriminate); auto; try set_solver.

(** A state event whose state is not 'visible' runs neither method. *)
Lemma deliver_state_ignored fuel ty st (s : card M) :
  String.eqb st "visible" = false ->
  deliver rt fuel el (state_event ty st) s = Returned () s.
Proof.
  intros Hst. rewrite deliver_unfold.
  change (listeners el (type (state_event ty st)))
    with (registered el ty ++ []).
  rewrite app_nil_r. cbn [registered].
  destruct (String.eqb ty "stateadded");
    [|destruct (String.eqb ty "stateremoved"); [|done]];
    rewrite for_each_one; unfold reported, run_listener, detail_state;
    cbn [get_field detail state_event lookup_field String.eqb Ascii.eqb Bool.eqb];
    rewrite bind_run, ret_run; cbn [differs_from_string];
    by rewrite Hst.
Qed.

(** What every stimulus does and does not do, whatever the card and the
    runtime. *)
Lemma react_facts (fuel : nat) (x : stimulus) (s : card M) :
  exists s' delta,
    react rt (S (S fuel)) x s = Returned () s' /\
    calls (host s') = calls (host s) ++ delta /\
    (is_frame x = false -> el_visible (host s') = el_visible (host s)) /\
    (is_reveal_request x = false ->
       el_position (host s') = el_position (host s) /\
       dummy_position (host s') = dummy_position (host s) /\
       show_calls_in delta = []) /\
    ga_calls_in delta =
      match x with
      | ElAddState st =>
          if String.eqb st "visible" && negb (bool_decide (st ∈ el_states (host s)))
          then match ga rt with
               | GaReturns =>
                   opened ::
                   (if bool_decide ("visible" ∉ text_states (host s))
                    then [opened] else [])
               | GaThrows => [opened]
               | GaMissing => []
               end
          else []
      | RaycasterCursorUp =>
          match ga rt with GaMissing => [] | _ => [dismissed] end
      | ElRemoveState _ | Frame _ _ => []
      end /\
    (match x with
     | ElRemoveState _ | Frame _ _ => count_calls is_error delta = 0
     | _ => True
     end) /\
    (show_calls_in delta = [] \/ hide_calls_in delta = []) /\
    text_value (host s') = text_value (host s) /\
    (match x with
     | ElAddState st => st ∈ el_states (host s')
     | ElRemoveState st => st ∉ el_states (host s')
     | _ => True
     end).
Proof.
  destruct s as [bg hd [els scs txs vis pos dpos tv cs]].
  destruct x as [st | st | | t dt]; cbn [react is_frame is_reveal_request].
  - cbn [host el_states text_states].
    destruct (decide (st ∈ els)) as [Hin | Hout].
    + rewrite addState_present by done.
      rewrite (bool_decide_eq_true_2 _ Hin), andb_false_r. conclude.
    + rewrite addState_absent by done.
      rewrite (bool_decide_eq_false_2 _ Hout), andb_true_r.
      destruct (String.eqb st "visible") eqn:Hst.
      * apply String.eqb_eq in Hst as ->.
        rewrite deliver_stateadded by (cbn; tauto). cbn [below].
        destruct (ga rt) eqn:Hga.
        -- rewrite onShow_run. unfold ga_returns. rewrite Hga.
           settle. destruct (bool_decide ("visible" ∉ txs));
             cbn [andb]; unfold reveal_answer; rewrite ?Hga; conclude.
        -- conclude.
        -- conclude.
      * rewrite deliver_state_ignored by done. conclude.
  - destruct (decide (st ∈ els)) as [Hin | Hout].
    + rewrite removeState_present by done.
      destruct (String.eqb st "visible") eqn:Hst.
      * apply String.eqb_eq in Hst as ->.
        rewrite deliver_stateremoved by (cbn; tauto). cbn [below].
        rewrite onHide_run. settle.
        destruct (bool_decide ("visible" ∈ els ∖ {["visible"]})),
                 (bool_decide ("visible" ∈ txs)); conclude.
      * rewrite deliver_state_ignored by done. conclude.
    + rewrite removeState_absent by done. conclude.
  - rewrite deliver_cursor_up. cbn [below].
    destruct (ga rt); [rewrite onHide_run| |].
    + settle. destruct (bool_decide ("visible" ∈ els)),
                 (bool_decide ("visible" ∈ txs)); conclude.
    + conclude.
    + conclude.
  - rewrite tick_run. conclude.
Qed.
(** X1. A state other than 'visible' added to or removed from the
    element is none of the component's business: the state changes and
    nothing else does. No mesh is called, no analytics event is sent,
    whatever the runtime. *)
Theorem other_states_are_ignored (fuel : nat) (st : string) (s : card M) :
  st <> "visible" ->
  react rt (S fuel) (ElAddState st) s =
    Returned ()
      (Card (background s) (header s)
         (Page ({[st]} ∪ el_states (host s))
               (scene_states (host s)) (text_states (host s))
               (el_visible (host s)) (el_position (host s))
               (dummy_position (host s)) (text_value (host s))
               (calls (host s) ++ [AddState el st]))) /\
  react rt (S fuel) (ElRemoveState st) s =
    Returned ()
      (Card (background s) (header s)
         (Page (el_states (host s) ∖ {[st]})
               (scene_states (host s)) (text_states (host s))
               (el_visible (host s)) (el_position (host s))
               (dummy_position (host s)) (text_value (host s))
               (calls (host s) ++ [RemoveState el st]))).
Proof.
  intros Hst. apply String.eqb_neq in Hst.
  destruct s as [bg hd [els scs txs vis pos dpos tv cs]]. cbn [react]. split.
  - destruct (decide (st ∈ els)) as [Hin | Hout].
    + rewrite addState_present by done. settle. do 3 f_equal. set_solver.
    + rewrite addState_absent by done.
      rewrite deliver_state_ignored by done. by settle.
  - destruct (decide (st ∈ els)) as [Hin | Hout].
    + rewrite removeState_present by done.
      rewrite deliver_state_ignored by done. by settle.
    + rewrite removeState_absent by done. settle. do 3 f_equal. set_solver.
Qed.

(** X2. A state event that carries no 'visible' state runs neither
    method. When its detail is [null] or [undefined], reading
    [event.detail.state] throws, and the host reports the error; when the
    detail has no [state], or one that is not the string 'visible', the
    listener returns at once. *)
Theorem state_event_without_visible_state
    (fuel : nat) (ty : string) (d : value) (s : card M) :
  listeners el ty <> [] ->
  match get_field "state" d with
  | None =>
      deliver rt (S fuel) el (Event ty d) s =
        Returned () (touch (record_calls [UncaughtError]) s)
  | Some v =>
      if differs_from_string v "visible"
      then deliver rt (S fuel) el (Event ty d) s = Returned () s
      else True
  end.
Proof.
  intros Hty. rewrite deliver_unfold.
  change (listeners el (type (Event ty d))) with (listeners el ty).
  change (listeners el ty) with (registered el ty ++ []) in *.
  rewrite app_nil_r in *. cbn [registered] in *.
  destruct (String.eqb ty "stateadded");
    [|destruct (String.eqb ty "stateremoved"); [|done]];
    rewrite for_each_one; unfold reported, run_listener, detail_state;
    cbn [detail];
    (destruct (get_field "state" d) as [v|];
     [destruct (differs_from_string v "visible") eqn:Hv; [|done];
      by rewrite bind_run, ret_run, Hv
     |by rewrite bind_run]).
Qed.

(** X3. Removing 'visible' from the element dismisses the card without
    analytics: when the element held the state, [onHide] runs, and once
    more inside that run when the title text held 'visible' as well (its
    removal bubbles to the listener of the element); no analytics call is
    made and no error is reported, whatever the runtime, also one with no
    [ga]. When the element did not hold the state, nothing happens. *)
Theorem dismiss_by_state_needs_no_analytics (fuel : nat) (s : card M) :
  let el_held := bool_decide ("visible" ∈ el_states (host s)) in
  let text_held := bool_decide ("visible" ∈ text_states (host s)) in
  let runs := if el_held then (if text_held then 2 else 1) else 0 in
  exists s' delta,
    react rt (S (S fuel)) (ElRemoveState "visible") s = Returned () s' /\
    calls (host s') = calls (host s) ++ RemoveState el "visible" :: delta /\
    delta =
      (if el_held then title_dismissal text_held (background s) (header s)
       else []) /\
    ga_calls_in delta = [] /\
    count_calls is_error delta = 0 /\
    hide_calls_in delta = concat (replicate runs hide_pair) /\
    background s' = after_hides [] runs (background s) /\
    header s' = after_hides [0.05%float; 0.25%float] runs (header s) /\
    ("visible" ∉ el_states (host s')) /\
    scene_states (host s') =
      (if el_held then scene_states (host s) ∖ {["modal"]}
       else scene_states (host s)) /\
    text_states (host s') =
      (if el_held then text_states (host s) ∖ {["visible"]}
       else text_states (host s)).
Proof.
  intros el_held text_held runs. subst el_held text_held runs.
  destruct s as [bg hd [els scs txs vis pos dpos tv cs]]. cbn [react].
  cbn [host el_states text_states]. case_bool_decide as Hin.
  - rewrite removeState_present by done.
    rewrite deliver_stateremoved by (cbn; tauto).
    rewrite onHide_unheard by (settle; set_solver).
    eexists _, _. split; [reflexivity|].
    split; [settle; reflexivity|]. settle.
    split; [reflexivity|].
    rewrite hide_calls_in_title_dismissal.
    destruct (bool_decide ("visible" ∈ txs));
      unfold title_dismissal, dismissal, hiding; read_log;
      repeat split; auto; set_solver.
  - rewrite removeState_absent by done.
    eexists _, _. split; [reflexivity|]. split; [settle; reflexivity|].
    split; [reflexivity|]. settle. by repeat split.
Qed.

(** X4. Only a frame sets the element's 'visible' attribute. Adding or
    removing a state and clicking leave it as it is: a dismissed card
    stays rendered until the next frame finds the header's animIn at 0. *)
Theorem only_a_frame_sets_the_visible_attribute
    (fuel : nat) (x : stimulus) (s : card M) :
  exists s',
    react rt (S (S fuel)) x s = Returned () s' /\
    el_visible (host s') =
      match x with
      | Frame t dt => (0 <? mesh_animIn (mesh_tick dt (header s)).1)%float
      | _ => el_visible (host s)
      end.
Proof.
  destruct (react_facts fuel x s) as (s' & delta & E & _ & V & _).
  exists s'. split; [done|].
  destruct x as [st | st | | t dt]; try by apply V.
  cbn [react] in E. rewrite tick_run in E. by injection E as <-.
Qed.

(** X5. Only the request to reveal moves the card: every other stimulus
    leaves the element's position and the position dummy where they were,
    and shows no mesh. *)
Theorem only_a_reveal_moves_the_card (fuel : nat) (x : stimulus) (s : card M) :
  exists s' delta,
    react rt (S (S fuel)) x s = Returned () s' /\
    calls (host s') = calls (host s) ++ delta /\
    if is_reveal_request x then True
    else el_position (host s') = el_position (host s) /\
         dummy_position (host s') = dummy_position (host s) /\
         show_calls_in delta = [].
Proof.
  destruct (react_facts fuel x s) as (s' & delta & E & C & _ & P & _).
  exists s', delta. split; [done|]. split; [done|].
  destruct (is_reveal_request x); [done|by apply P].
Qed.

(** X6. The analytics events a stimulus sends. A frame and the removal
    of a state send none and report no error. A click sends 'dismissed'
    once. A request to reveal sends 'opened' once for each run of the
    state-added listener: once when the title text holds 'visible'
    already or [ga] throws, and twice when [ga] returns and the title
    text does not hold 'visible' yet, because adding it inside [onShow]
    runs the listener of the element again. No stimulus both shows and
    hides a mesh. *)
Theorem analytics_calls_of_a_stimulus (fuel : nat) (x : stimulus) (s : card M) :
  exists s' delta,
    react rt (S (S fuel)) x s = Returned () s' /\
    calls (host s') = calls (host s) ++ delta /\
    ga_calls_in delta =
      match x with
      | ElAddState st =>
          if String.eqb st "visible" && negb (bool_decide (st ∈ el_states (host s)))
          then match ga rt with
               | GaReturns =>
                   opened ::
                   (if bool_decide ("visible" ∉ text_states (host s))
                    then [opened] else [])
               | GaThrows => [opened]
               | GaMissing => []
               end
          else []
      | RaycasterCursorUp =>
          match ga rt with GaMissing => [] | _ => [dismissed] end
      | ElRemoveState _ | Frame _ _ => []
      end /\
    match x with
    | ElRemoveState _ | Frame _ _ => count_calls is_error delta = 0
    | _ => True
    end /\
    (show_calls_in delta = [] \/ hide_calls_in delta = []).
Proof.
  destruct (react_facts fuel x s) as (s' & delta & E & C & _ & _ & G & Z & SH & _).
  by exists s', delta.
Qed.

(** X7. A second request to reveal is ignored. After [el.addState('visible')]
    the element holds the state, whatever [ga] did, so adding it again
    runs no listener: no analytics, no [onShow], the card as it was. That
    is also so when the first request ended in an error: the reveal is
    not tried again until the state has been removed. *)
Theorem second_reveal_request_is_ignored (fuel : nat) (s : card M) :
  exists s1,
    react rt (S (S fuel)) (ElAddState "visible") s = Returned () s1 /\
    "visible" ∈ el_states (host s1) /\
    react rt (S (S fuel)) (ElAddState "visible") s1 =
      Returned ()
        (Card (background s1) (header s1)
           (record_calls [AddState el "visible"] (host s1))).
Proof.
  destruct (react_facts fuel (ElAddState "visible") s)
    as (s1 & delta & E & _ & _ & _ & _ & _ & _ & _ & Hin).
  exists s1. split; [done|]. split; [done|].
  cbn [react]. by rewrite addState_present.
Qed.

(** X8. A reveal followed by the removal of 'visible', on a card whose
    element and title text do not hold 'visible', is a round trip on the
    states: the element's states are what they were, the scene is not
    modal and the title text not visible. On the way each method has run
    twice, the second time inside the first, answering the state event
    of the title text: each mesh has been shown twice and then hidden
    twice, and the analytics event of the opening was sent twice. *)
Theorem reveal_then_dismiss_round_trip (fuel : nat) (s : card M) :
  ga rt = GaReturns ->
  "visible" ∉ el_states (host s) ->
  "visible" ∉ text_states (host s) ->
  exists s' delta,
    run rt (S (S fuel)) [ElAddState "visible"; ElRemoveState "visible"] s =
      Returned () s' /\
    calls (host s') = calls (host s) ++ delta /\
    el_states (host s') = el_states (host s) /\
    scene_states (host s') = scene_states (host s) ∖ {["modal"]} /\
    text_states (host s') = text_states (host s) /\
    background s' =
      after_hides [] 2 (after_shows [0.25%float; 0.05%float] 2 (background s)) /\
    header s' =
      after_hides [0.05%float; 0.25%float] 2
        (after_shows [0.05%float] 2 (header s)) /\
    show_calls_in delta = show_pair ++ show_pair /\
    hide_calls_in delta = hide_pair ++ hide_pair /\
    additions_in delta =
      [(el, "visible"); (sceneEl, "modal"); (headerText, "visible");
       (sceneEl, "modal"); (headerText, "visible")] /\
    removals_in delta =
      [(el, "visible");
       (sceneEl, "modal"); (el, "visible"); (headerText, "visible");
       (sceneEl, "modal"); (el, "visible"); (headerText, "visible")] /\
    ga_calls_in delta = [opened; opened].
Proof.
  intros Hga Hout Htext.
  destruct s as [bg hd [els scs txs vis pos dpos tv cs]].
  cbn [host el_states text_states] in Hout, Htext.
  unfold run. cbn [for_each react]. rewrite bind_run.
  rewrite addState_absent by done.
  rewrite deliver_stateadded by (cbn; tauto). cbn [below].
  rewrite Hga, onShow_run. unfold ga_returns. rewrite Hga.
  cbn [host text_states touch record_calls with_states].
  rewrite (bool_decide_eq_true_2 ("visible" ∉ txs)) by done.
  cbv beta iota zeta. cbn [andb]. rewrite bind_run.
  rewrite removeState_present by (settle; set_solver).
  rewrite deliver_stateremoved by (cbn; tauto).
  rewrite onHide_unheard by (settle; set_solver).
  cbn [host text_states touch record_calls with_states].
  rewrite (bool_decide_eq_true_2 ("visible" ∈ {["visible"]} ∪ txs)) by set_solver.
  cbv beta iota zeta. rewrite ret_run.
  eexists _, _. split; [reflexivity|]. split; [arrange; reflexivity|].
  arrange. unfold title_dismissal, dismissal, hiding, reveal_answer, reveal, revealing.
  rewrite Hga. read_log.
  repeat split; auto; set_solver.
Qed.

(** X9. Frames alone advance the two meshes and set the 'visible'
    attribute, whatever their number: they add and remove no state, leave
    the positions and the title, show and hide nothing, and send no
    analytics event. *)
Theorem frames_only_advance_the_meshes
    (fuel : nat) (ts : list (number * number)) (s : card M) :
  exists s' delta,
    run rt fuel (frames ts) s = Returned () s' /\
    calls (host s') = calls (host s) ++ delta /\
    background s' = advanced (map snd ts) (background s) /\
    header s' = advanced (map snd ts) (header s) /\
    el_states (host s') = el_states (host s) /\
    scene_states (host s') = scene_states (host s) /\
    text_states (host s') = text_states (host s) /\
    el_position (host s') = el_position (host s) /\
    dummy_position (host s') = dummy_position (host s) /\
    text_value (host s') = text_value (host s) /\
    show_calls_in delta = [] /\
    hide_calls_in delta = [] /\
    additions_in delta = [] /\
    removals_in delta = [] /\
    count_calls is_ga delta = 0.
Proof.
  revert s. induction ts as [|[t dt] ts IH]; intros s.
  - exists s, []. rewrite app_nil_r. by repeat split.
  - unfold run, frames in *. cbn [map for_each fst snd react].
    rewrite bind_run, tick_run. cbv beta iota zeta.
    match goal with |- context [for_each _ _ ?s1] =>
      destruct (IH s1) as (s' & delta & E & C & B & H & F)
    end.
    rewrite E. eexists s', _. split; [reflexivity|].
    split; [rewrite C; cbn [host calls]; by rewrite <- app_assoc|].
    split; [by rewrite B|]. split; [by rewrite H|].
    destruct F as (F1 & F2 & F3 & F4 & F5 & F6 & F7 & F8 & F9 & F10 & F11).
    cbn [host el_states scene_states text_states el_position dummy_position
         text_value] in *.
    read_log. rewrite F7, F8, F9, F10, F11.
    by repeat split.
Qed.

(** *** States that go together *)

Lemma run_keeps (P : page -> Prop) (fuel : nat) :
  (forall x s, P (host s) ->
     exists s', react rt fuel x s = Returned () s' /\ P (host s')) ->
  forall xs s, P (host s) ->
    exists s', run rt fuel xs s = Returned () s' /\ P (host s').
Proof.
  intros Hx xs. induction xs as [|x xs IH]; intros s Hs.
  - by exists s.
  - destruct (Hx x s Hs) as (s1 & E1 & H1).
    destruct (IH s1 H1) as (s' & E & H').
    exists s'. unfold run in *. cbn [for_each]. by rewrite bind_run, E1.
Qed.

Ltac keep :=
  eexists; split; [reflexivity|];
  settle; try set_solver.

Lemma react_keeps_states (fuel : nat) (x : stimulus) (s : card M) :
  exists s',
    react rt (S (S fuel)) x s = Returned () s' /\
    (title_in_step (host s) -> title_in_step (host s')) /\
    (ga rt = GaReturns -> in_step (host s) -> in_step (host s')).
Proof.
  unfold title_in_step, in_step.
  destruct s as [bg hd [els scs txs vis pos dpos tv cs]].
  destruct x as [st | st | | t dt]; cbn [react].
  - destruct (decide (st ∈ els)) as [Hin | Hout].
    + rewrite addState_present by done. keep.
    + rewrite addState_absent by done.
      destruct (String.eqb st "visible") eqn:Hst.
      * apply String.eqb_eq in Hst as ->.
        rewrite deliver_stateadded by (cbn; tauto). cbn [below].
        destruct (ga rt); [rewrite onShow_run| |]; keep.
      * rewrite deliver_state_ignored by done.
        apply String.eqb_neq in Hst. keep.
  - destruct (decide (st ∈ els)) as [Hin | Hout].
    + rewrite removeState_present by done.
      destruct (String.eqb st "visible") eqn:Hst.
      * apply String.eqb_eq in Hst as ->.
        rewrite deliver_stateremoved by (cbn; tauto). cbn [below].
        rewrite onHide_run. keep.
      * rewrite deliver_state_ignored by done.
        apply String.eqb_neq in Hst. keep.
    + rewrite removeState_absent by done. keep.
  - rewrite deliver_cursor_up. cbn [below].
    destruct (ga rt); [rewrite onHide_run| |]; keep.
  - rewrite tick_run. keep.
Qed.

(** X11. With analytics working, the three states stay in step through
    everything that happens to the component: if the scene is modal and
    the title text visible exactly when the element holds 'visible', they
    are so again after any number of state changes, clicks and frames. *)
Theorem states_stay_in_step (fuel : nat) (xs : list stimulus) (s : card M) :
  ga rt = GaReturns ->
  in_step (host s) ->
  exists s', run rt (S (S fuel)) xs s = Returned () s' /\ in_step (host s').
Proof.
  intros Hga. apply run_keeps. intros x s0 H0.
  destruct (react_keeps_states fuel x s0) as (s' & E & _ & K).
  exists s'. split; [done|by apply K].
Qed.

(** X12. Whatever the runtime, the scene's 'modal' and the title text's
    'visible' are set and cleared together: if the scene is modal exactly
    when the title text is visible, it is so again after any number of
    state changes, clicks and frames, also when [ga] fails. *)
Theorem title_and_modal_go_together
    (fuel : nat) (xs : list stimulus) (s : card M) :
  title_in_step (host s) ->
  exists s',
    run rt (S (S fuel)) xs s = Returned () s' /\ title_in_step (host s').
Proof.
  apply run_keeps. intros x s0 H0.
  destruct (react_keeps_states fuel x s0) as (s' & E & K & _).
  exists s'. split; [done|by apply K].
Qed.

End Reactions.

(** ** The further theorems at work *)

(** A state that is not 'visible', on a shown card, in a browser with no
    [ga]: only the state changes. *)
Lemma hover_state_is_ignored :
  "hovered" <> "visible" /\
  issued (react without_analytics 1 (ElAddState "hovered") shown_card) shown_card =
    [AddState el "hovered"] /\
  issued (react without_analytics 1 (ElRemoveState "hovered") shown_card) shown_card =
    [RemoveState el "hovered"].
Proof.
  assert (H : "hovered" <> "visible") by done.
  destruct (other_states_are_ignored without_analytics 0 "hovered" shown_card H)
    as [E1 E2].
  split; [exact H|]. rewrite E1, E2. split; by vm_compute.
Defined.

(** A 'stateadded' event with no detail: the error is reported and the
    card is not shown. *)
Lemma state_event_with_no_detail_is_reported :
  listeners el "stateadded" <> [] /\
  deliver desktop 1 el (Event "stateadded" VNull) fresh_card =
    Returned () (touch (record_calls [UncaughtError]) fresh_card).
Proof.
  assert (H : listeners el "stateadded" <> []) by done.
  split; [exact H|].
  exact (state_event_without_visible_state desktop 0 "stateadded" VNull fresh_card H).
Defined.

(** The fresh card, revealed and dismissed by state: no state is left
    behind, and each mesh was shown twice and hidden twice. *)
Lemma fresh_card_round_trip :
  ga desktop = GaReturns /\
  ("visible" ∉ el_states (host fresh_card)) /\
  ("visible" ∉ text_states (host fresh_card)) /\
  exists s' delta,
    run desktop 2 [ElAddState "visible"; ElRemoveState "visible"] fresh_card =
      Returned () s' /\
    calls (host s') = calls (host fresh_card) ++ delta /\
    el_states (host s') = ∅ /\
    scene_states (host s') = ∅ /\
    text_states (host s') = ∅ /\
    show_calls_in delta =
      [(Background, [0.25%float; 0.05%float]); (Header, [0.05%float]);
       (Background, [0.25%float; 0.05%float]); (Header, [0.05%float])] /\
    hide_calls_in delta =
      [(Background, []); (Header, [0.05%float; 0.25%float]);
       (Background, []); (Header, [0.05%float; 0.25%float])] /\
    ga_calls_in delta = [opened; opened].
Proof.
  assert (Hout : "visible" ∉ el_states (host fresh_card)) by by vm_compute.
  assert (Htext : "visible" ∉ text_states (host fresh_card)) by by vm_compute.
  split; [reflexivity|]. split; [exact Hout|]. split; [exact Htext|].
  destruct (reveal_then_dismiss_round_trip desktop 0 fresh_card eq_refl Hout Htext)
    as (s' & delta & E & C & Els & Scs & Txs & _ & _ & Sh & Hi & _ & _ & G).
  exists s', delta. split; [exact E|]. split; [exact C|].
  split; [by rewrite Els|]. split; [rewrite Scs; by vm_compute|].
  split; [by rewrite Txs|]. done.
Defined.

(** The fresh card through a reveal, a foreign state, frames, a click and
    more frames: the states are in step at the end. *)
Lemma states_in_step_after_a_session :
  ga desktop = GaReturns /\
  in_step (host fresh_card) /\
  exists s',
    run desktop 2
      [ElAddState "visible"; ElAddState "hovered"; Frame 0%float 0.5%float;
       Frame 0.5%float 0.5%float; RaycasterCursorUp; Frame 1%float 0.5%float]
      fresh_card = Returned () s' /\
    in_step (host s').
Proof.
  assert (H : in_step (host fresh_card)) by (by vm_compute).
  split; [reflexivity|]. split; [exact H|].
  exact (states_stay_in_step desktop 0 _ fresh_card eq_refl H).
Defined.

Lemma title_and_modal_together_without_analytics :
  title_in_step (host fresh_card) /\
  exists s',
    run without_analytics 2
      [ElAddState "visible"; Frame 0%float 0.5%float; RaycasterCursorUp;
       ElRemoveState "visible"]
      fresh_card = Returned () s' /\
    title_in_step (host s').
Proof.
  assert (H : title_in_step (host fresh_card)) by (by vm_compute).
  split; [exact H|].
  exact (title_and_modal_go_together without_analytics 0 _ fresh_card H).
Defined.

(** With no [ga] the element's state and the scene's fall out of step: the
    element holds 'visible' and the scene is not modal. *)
Example states_out_of_step_without_analytics :
  in_step (host fresh_card) /\
  ~ in_step
      (host (outcome_state
               (react without_analytics 2 (ElAddState "visible") fresh_card)
               fresh_card)).
Proof.
  split; [by vm_compute|].
  intros [H _]. vm_compute in H. destruct H as [H _]. by specialize (H eq_refl).
Qed.
